(** * Reviewer allocation script: model and verified properties

    Shallow embedding of [AllocationScript_v2.py]: the identifier
    normalizer, the reviewer pool builder, the exclusion resolver, the
    load-aware selector and the allocation driver ([main]).

    Conventions.
    - Python integers are unbounded: they are [Z].  Converting a string
      of digits with [int] is the one place where their size matters:
      the interpreter refuses a string of more than
      [INT_MAX_STR_DIGITS] digits (4300, the default of
      [sys.get_int_max_str_digits()]) with a [ValueError].
    - A Python [str] is a [string] whose characters are read as code
      points below 256; on that range [str.strip] and the regex class
      [\s] agree on the white space characters, and [\d] is ['0'..'9'].
    - A Python float is a [spec_float] (sign, mantissa, exponent): the
      script only asks whether a float is NaN, whether it is integral
      and what its integer value is, all of which are exact.
    - The dictionaries and sets of the script are [gmap] and [gset].
    - Exceptions are values of [exn]; code that can raise lives in an
      error monad, code that also touches the random generator, the
      load table or the output file lives in a state-and-error monad.
    - Console output ([print]) is not modelled. *)

From Stdlib Require Import ZArith Ascii String.
From Stdlib Require Import Floats.SpecFloat.
From Stdlib Require Import DecimalString DecimalNat.
From stdpp Require Import gmap strings list fin_maps.

Open Scope Z_scope.

(** ** Exceptions and outcomes *)

(** The exceptions the script can raise.  The first three are the
    [raise] statements of [main]; the others are raised by the runtime
    ([random.sample] on a bad sample size, [int] on an infinity or NaN,
    [int] on a string of too many digits). *)
Inductive exn : Type :=
| MissingApplicationId
    (* ValueError("Applicants CSV must contain an 'Application ID' column.") *)
| NoReviewerIds
    (* ValueError("No reviewer IDs found in reviewers CSV.") *)
| ConflictDetected (conflict : gset Z)
    (* RuntimeError("Conflict detected for Application ...") *)
| SampleOutOfRange
    (* ValueError("Sample larger than population or is negative") *)
| FloatToInt
    (* OverflowError / ValueError of int(float) *)
| IntDigitsLimit
    (* ValueError("Exceeds the limit (4300 digits) for integer string
       conversion: value has ... digits") *).

Inductive outcome (A : Type) : Type :=
| Returned (a : A)
| Raised (e : exn).
Arguments Returned {A} a.
Arguments Raised {A} e.

Definition obind {A B} (x : outcome A) (f : A → outcome B) : outcome B :=
  match x with
  | Returned a => f a
  | Raised e => Raised e
  end.

(** ** Values *)

(** The scalar values the script receives from the two tables. *)
Inductive pyval : Type :=
| PyNone
| PyInt (z : Z)
| PyFloat (f : spec_float)
| PyStr (s : string).

(** [float(s)] on a string belongs to the Python runtime; it either
    returns a float or raises [ValueError] ([None] here). *)
Class PyFloatParser := float_of_str : list ascii → option spec_float.

(** ** Identifier normalizer *)

Module Normalizer.

Definition code (c : ascii) : nat := nat_of_ascii c.

(** White space of [str.strip()] and of the regex class [\s]. *)
Definition is_space (c : ascii) : bool :=
  let n := code c in
  ((9 <=? n) && (n <=? 13) || (28 <=? n) && (n <=? 32)
   || (n =? 133) || (n =? 160))%nat.

(** The regex class [\d]. *)
Definition is_digit (c : ascii) : bool :=
  let n := code c in ((48 <=? n) && (n <=? 57))%nat.

Definition is_comma (c : ascii) : bool := (code c =? 44)%nat.
Definition is_dot (c : ascii) : bool := (code c =? 46)%nat.
Definition is_zero (c : ascii) : bool := (code c =? 48)%nat.

Fixpoint drop_while (p : ascii → bool) (s : list ascii) : list ascii :=
  match s with
  | c :: s' => if p c then drop_while p s' else s
  | [] => []
  end.

Fixpoint take_while (p : ascii → bool) (s : list ascii) : list ascii :=
  match s with
  | c :: s' => if p c then c :: take_while p s' else []
  | [] => []
  end.

(** [s.strip()] *)
Definition strip (s : list ascii) : list ascii :=
  reverse (drop_while is_space (reverse (drop_while is_space s))).

(** [s.replace(",", "")] *)
Definition remove_commas (s : list ascii) : list ascii :=
  List.filter (λ c, negb (is_comma c)) s.

(** The value that a string of decimal digits denotes. *)
Definition int_of_digits (ds : list ascii) : Z :=
  fold_left (λ acc c, 10 * acc + (Z.of_nat (code c) - 48)) ds 0.

(** [sys.get_int_max_str_digits()] of an interpreter left at its
    default. *)
Definition INT_MAX_STR_DIGITS : Z := 4300.

(** [int(digits)] for a string of decimal digits: the interpreter
    counts the digits (leading zeros included) and raises [ValueError]
    past the limit. *)
Definition int_of_str (ds : list ascii) : outcome Z :=
  if INT_MAX_STR_DIGITS <? Z.of_nat (length ds)
  then Raised IntDigitsLimit
  else Returned (int_of_digits ds).

(** [ID_PATTERN_INT_OR_FLOAT.match(s)], the pattern being
    [^\s*(\d+)(?:\.0+)?\s*$]; the result is group 1. *)
Definition match_id_pattern (s : list ascii) : option (list ascii) :=
  let s1 := drop_while is_space s in
  let digits := take_while is_digit s1 in
  let rest := drop_while is_digit s1 in
  match digits with
  | [] => None
  | _ =>
      match rest with
      | c :: rest' =>
          if is_dot c then
            match take_while is_zero rest' with
            | [] => None
            | _ =>
                if forallb is_space (drop_while is_zero rest')
                then Some digits else None
            end
          else if forallb is_space rest then Some digits else None
      | [] => Some digits
      end
  end.

(** [math.isnan(f)] *)
Definition isnan (f : spec_float) : bool :=
  match f with S754_nan => true | _ => false end.

(** [f.is_integer()] *)
Definition is_integer (f : spec_float) : bool :=
  match f with
  | S754_zero _ => true
  | S754_finite _ m e =>
      if 0 <=? e then true else Z.pos m mod 2 ^ (- e) =? 0
  | S754_infinity _ | S754_nan => false
  end.

(** [int(f)]: truncation towards zero; raises on infinities and NaN. *)
Definition int_of_float (f : spec_float) : outcome Z :=
  match f with
  | S754_zero _ => Returned 0
  | S754_finite s m e =>
      let a := if 0 <=? e then Z.pos m * 2 ^ e else Z.pos m / 2 ^ (- e) in
      Returned (if s then - a else a)
  | S754_infinity _ | S754_nan => Raised FloatToInt
  end.

Section normalize.
Context `{!PyFloatParser}.

(** [normalize_id(val)]; [None] is Python's [None]. *)
Definition normalize_id (val : pyval) : outcome (option Z) :=
  match val with
  | PyNone => Returned None
  | PyInt z => Returned (Some z)
  | PyFloat f =>
      if isnan f then Returned None
      else if is_integer f
           then obind (int_of_float f) (λ z, Returned (Some z))
           else Returned None
  | PyStr str =>
      let s := strip (list_ascii_of_string str) in
      match s with
      | [] => Returned None
      | _ =>
          let s_no_commas := remove_commas s in
          match match_id_pattern s_no_commas with
          | Some g1 => obind (int_of_str g1) (λ z, Returned (Some z))
          | None =>
              match float_of_str s_no_commas with
              | Some f =>
                  if is_integer f
                  then obind (int_of_float f) (λ z, Returned (Some z))
                  else Returned None
              | None => Returned None
              end
          end
      end
  end.

(** The inputs that carry a minus sign: a negative integer, a float
    whose sign bit is set, and a string that the digit pattern
    rejects and that [float] reads as a float whose sign bit is set. *)
Definition signed_input (val : pyval) : bool :=
  match val with
  | PyNone => false
  | PyInt z => z <? 0
  | PyFloat f =>
      match f with S754_finite true _ _ => true | _ => false end
  | PyStr str =>
      let s_no_commas := remove_commas (strip (list_ascii_of_string str)) in
      match match_id_pattern s_no_commas with
      | Some _ => false
      | None =>
          match float_of_str s_no_commas with
          | Some (S754_finite true _ _) => true
          | _ => false
          end
      end
  end.
End normalize.

(** The values on which [int] stays within the digit limit: every
    value but a string whose digit run (group 1 of the pattern) has
    more than [INT_MAX_STR_DIGITS] digits. *)
Definition within_digit_limit (val : pyval) : bool :=
  match val with
  | PyStr str =>
      match match_id_pattern
              (remove_commas (strip (list_ascii_of_string str))) with
      | Some g1 => Z.of_nat (length g1) <=? INT_MAX_STR_DIGITS
      | None => true
      end
  | _ => true
  end.

(** Strings made of decimal digits and commas only. *)
Definition digits_and_commas (s : list ascii) : bool :=
  forallb (λ c, is_digit c || is_comma c) s.

End Normalizer.

Import Normalizer.

(** ** The random generator

    [random.seed], [random.shuffle] and [random.sample] belong to the
    Python runtime.  The script relies on their documented contract
    only: shuffling permutes, and sampling [k] elements of a population
    of at least [k] returns [k] elements taken at distinct positions
    (so the sample, completed by the elements left over, is a
    permutation of the population).  [rng] is the state of the single
    generator of the process. *)
Class PyRandom := {
  rng : Type;
  seed : Z → rng;
  shuffle : list Z → rng → list Z * rng;
  sample : list Z → nat → rng → list Z * rng;
  shuffle_perm : ∀ l g, (shuffle l g).1 ≡ₚ l;
  sample_perm : ∀ l k g,
    (k ≤ length l)%nat →
    length (sample l k g).1 = k ∧ ∃ rest, (sample l k g).1 ++ rest ≡ₚ l;
}.

(** ** Tables, configuration and the mutable state *)

(** The module constants of the script. *)
Record config := {
  ASSIGNMENTS_PER_APPLICATION : Z;
  SEED : option Z;
  MAX_ASSIGNMENTS_PER_REVIEWER : option Z;
  MIN_ASSIGNMENTS_PER_REVIEWER : option Z;
  EXCLUSION_COL_CANDIDATES : list string;
}.

Definition script_config : config := {|
  ASSIGNMENTS_PER_APPLICATION := 3;
  SEED := Some 42;
  MAX_ASSIGNMENTS_PER_REVIEWER := Some 5;
  MIN_ASSIGNMENTS_PER_REVIEWER := Some 3;
  EXCLUSION_COL_CANDIDATES := ["Reviewer 1"; "Reviewer 2"; "Reviewer 3"]%string;
|}.

(** The applicants table as [main] walks it: the column names
    ([df.columns]) and the rows that [df.iterrows()] yields, in order,
    each one the mapping from column name to value of the row's
    [Series].  The values are those of the [Series], that is, after
    pandas has brought the cells of the row to one dtype (an integer
    cell beside float cells is yielded as a float); they need not be
    the values as they stand in the table. *)
Record dataframe := {
  df_columns : list string;
  df_rows : list (gmap string pyval);
}.

(** The name of the required column. *)
Definition APPLICATION_ID : string := "Application ID".

(** [row.get(col)] *)
Definition row_get (row : gmap string pyval) (col : string) : pyval :=
  default PyNone (row !! col).

(** One record of the output table: the application id, the
    [Assigned Reviewer i] cells in order, [Excluded Count],
    [Eligible Pool Size] and [Used Fallback]. *)
Record out_row := {
  o_app_id : pyval;
  o_assigned : list pyval;
  o_excluded_count : nat;
  o_eligible_size : nat;
  o_used_fallback : bool;
}.

(** The fields interpolated in a warning message:
    [Application {app_id}: only {found} eligible reviewers (needed {needed}).] *)
Record warning := {
  w_app_id : pyval;
  w_found : nat;
  w_needed : Z;
}.

(** The cells that the exclusion resolver reads in a record, and the
    cells that the pool builder reads in the reviewers file (the first
    cell of each row that has one), are all within the digit limit. *)
Definition row_within_limit (cols : list string) (row : gmap string pyval)
  : bool :=
  forallb (λ col, within_digit_limit (row_get row col)) cols.
Definition file_within_limit (rows : list (list string)) : bool :=
  forallb (λ row, match row with
                  | raw :: _ => within_digit_limit (PyStr raw)
                  | [] => true
                  end) rows.

Section engine.
Context `{!PyFloatParser} `{!PyRandom}.

(** The objects that outlive a statement and can be reached from more
    than one place: the generator of the [random] module, the [loads]
    dictionary (created by [main], handed to the selector by
    reference) and the output file ([None] while it is not written). *)
Record store := {
  st_rng : rng;
  st_loads : gmap Z Z;
  st_file : option (list out_row);
}.

Definition M (A : Type) : Type := store → outcome A * store.

Definition ret {A} (a : A) : M A := λ s, (Returned a, s).
Definition raise {A} (e : exn) : M A := λ s, (Raised e, s).
Definition bind {A B} (m : M A) (f : A → M B) : M B :=
  λ s, match m s with
       | (Returned a, s') => f a s'
       | (Raised e, s') => (Raised e, s')
       end.
Definition lift {A} (x : outcome A) : M A := λ s, (x, s).

Notation "x <- m ;; k" := (bind m (λ x, k))
  (at level 100, m at next level, right associativity).

(** [loads.get(rid, 0)] *)
Definition load_of (loads : gmap Z Z) (rid : Z) : Z :=
  default 0 (loads !! rid).
Definition loads_get (rid : Z) : M Z :=
  λ s, (Returned (load_of (st_loads s) rid), s).
(** [loads[rid] = v] *)
Definition loads_set (rid v : Z) : M unit :=
  λ s, (Returned tt,
        {| st_rng := st_rng s; st_loads := <[rid := v]> (st_loads s);
           st_file := st_file s |}).
(** [loads = d] *)
Definition loads_bind (d : gmap Z Z) : M unit :=
  λ s, (Returned tt,
        {| st_rng := st_rng s; st_loads := d; st_file := st_file s |}).
Definition with_rng {A} (f : rng → A * rng) : M A :=
  λ s, let '(a, g) := f (st_rng s) in
       (Returned a,
        {| st_rng := g; st_loads := st_loads s; st_file := st_file s |}).
(** [random.seed(n)] *)
Definition random_seed (n : Z) : M unit :=
  with_rng (λ _, (tt, seed n)).
(** [random.shuffle(x)]; the list is rebound to the shuffled one. *)
Definition random_shuffle (x : list Z) : M (list Z) :=
  with_rng (shuffle x).
(** [random.sample(population, k)] *)
Definition random_sample (population : list Z) (k : Z) : M (list Z) :=
  if (k <? 0) || (Z.of_nat (length population) <? k)
  then raise SampleOutOfRange
  else with_rng (sample population (Z.to_nat k)).
(** [pd.DataFrame(rows).to_csv(OUTPUT_FILE, index=False)] *)
Definition to_csv (rows : list out_row) : M unit :=
  λ s, (Returned tt,
        {| st_rng := st_rng s; st_loads := st_loads s;
           st_file := Some rows |}).

(** [[x for x in l if p(x)]] where the test reads the store. *)
Fixpoint filterM (p : Z → M bool) (l : list Z) : M (list Z) :=
  match l with
  | [] => ret []
  | x :: l' =>
      b <- p x ;;
      r <- filterM p l' ;;
      ret (if b then x :: r else r)
  end.

(** [for x in l: body(x)] *)
Fixpoint forM_ {A} (l : list A) (body : A → M unit) : M unit :=
  match l with
  | [] => ret tt
  | x :: l' => _ <- body x ;; forM_ l' body
  end.

(** ** Reviewer pool builder *)

(** The loop of [load_reviewer_ids] over the rows of the reviewers
    file: empty rows and first cells that are not identifiers are
    skipped. *)
Fixpoint collect_ids (rows : list (list string)) (ids : list Z)
  : outcome (list Z) :=
  match rows with
  | [] => Returned ids
  | [] :: rows' => collect_ids rows' ids
  | (raw :: _) :: rows' =>
      obind (normalize_id (PyStr raw)) (λ rid,
        match rid with
        | None => collect_ids rows' ids
        | Some r => collect_ids rows' (ids ++ [r])
        end)
  end.

(** The second loop: keep the first occurrence of each identifier. *)
Fixpoint dedup_ids (ids : list Z) (seen : gset Z) (uniq : list Z)
  : list Z :=
  match ids with
  | [] => uniq
  | rid :: ids' =>
      if decide (rid ∉ seen)
      then dedup_ids ids' ({[rid]} ∪ seen) (uniq ++ [rid])
      else dedup_ids ids' seen uniq
  end.

Definition load_reviewer_ids (reviewers : list (list string))
  : outcome (list Z) :=
  obind (collect_ids reviewers []) (λ ids, Returned (dedup_ids ids ∅ [])).

(** ** Exclusion resolver *)

Definition get_exclusion_cols (cfg : config) (df : dataframe)
  : list string :=
  filter (λ c, c ∈ df_columns df) (EXCLUSION_COL_CANDIDATES cfg).

Fixpoint build_exclusion_loop (row : gmap string pyval)
    (cols : list string) (excluded : gset Z) : outcome (gset Z) :=
  match cols with
  | [] => Returned excluded
  | col :: cols' =>
      obind (normalize_id (row_get row col)) (λ rid,
        match rid with
        | Some r => build_exclusion_loop row cols' ({[r]} ∪ excluded)
        | None => build_exclusion_loop row cols' excluded
        end)
  end.

Definition build_exclusion_set (row : gmap string pyval)
    (exclusion_cols : list string) : outcome (gset Z) :=
  build_exclusion_loop row exclusion_cols ∅.

(** ** Load-aware selector *)

Definition len (l : list Z) : Z := Z.of_nat (length l).

(** [choose_reviewers], the selector without bounds; [main] does not
    call it. *)
Definition choose_reviewers (eligible_pool : list Z) (k : Z) : M (list Z) :=
  if len eligible_pool <=? k
  then match eligible_pool with
       | [] => ret []
       | _ => random_sample eligible_pool (len eligible_pool)
       end
  else random_sample eligible_pool k.

Definition choose_reviewers_with_minmax (eligible_pool : list Z) (k : Z)
    (min_load max_load : option Z) : M (list Z) :=
  (* 1) Enforce max cap *)
  pool <- match max_load with
         | Some mx =>
             filterM (λ rid, l <- loads_get rid ;; ret (l <? mx))
                     eligible_pool
         | None => ret eligible_pool
         end ;;
  match pool with
  | [] => ret []
  | _ =>
      match min_load with
      | None => random_sample pool (Z.min k (len pool))
      | Some mn =>
          if mn <=? 0 then random_sample pool (Z.min k (len pool))
          else
            (* 2) Split pool by whether reviewers are under the min *)
            under_min <-
              filterM (λ rid, l <- loads_get rid ;; ret (l <? mn)) pool ;;
            at_or_above_min <-
              filterM (λ rid, l <- loads_get rid ;; ret (mn <=? l)) pool ;;
            (* 3) Randomize both groups *)
            under_min <- random_shuffle under_min ;;
            at_or_above_min <- random_shuffle at_or_above_min ;;
            (* 4) Pick from under-min first, then fill from the rest *)
            let picks := [] in
            let need := k in
            let take_n := Z.min need (len under_min) in
            let '(picks, need) :=
              if 0 <? take_n
              then (picks ++ take (Z.to_nat take_n) under_min,
                    need - take_n)
              else (picks, need) in
            let picks :=
              if (0 <? need)
                 && negb (bool_decide (at_or_above_min = []))
              then
                let fill_take := Z.min need (len at_or_above_min) in
                picks ++ take (Z.to_nat fill_take) at_or_above_min
              else picks in
            ret picks
      end
  end.

(** ** Allocation driver *)

(** The [Assigned Reviewer i] cells: [picks[i] if i < len(picks) else ""]
    for [i] in [range(k)]. *)
Definition assigned_cells (k : Z) (picks : list Z) : list pyval :=
  map (λ i, match picks !! i with
            | Some rid => PyInt rid
            | None => PyStr ""
            end)
      (seq 0 (Z.to_nat k)).

(** The body of the loop of [main] from the selection onwards: the
    under-fill warning, the conflict check, the commit of the loads
    and the output record. *)
Definition record_selection (cfg : config) (app_id : pyval)
    (excluded : gset Z) (eligible picks : list Z)
    (acc : list out_row * list warning)
  : M (list out_row * list warning) :=
  let k := ASSIGNMENTS_PER_APPLICATION cfg in
  let '(output_rows, warnings) := acc in
  let warnings :=
    if len picks <? k
    then warnings ++ [{| w_app_id := app_id; w_found := length picks;
                         w_needed := k |}]
    else warnings in
  let conflict : gset Z := list_to_set picks ∩ excluded in
  if decide (conflict ≠ ∅) then raise (ConflictDetected conflict)
  else
    _ <- forM_ picks (λ rid, l <- loads_get rid ;; loads_set rid (l + 1)) ;;
    let out := {| o_app_id := app_id;
                  o_assigned := assigned_cells k picks;
                  o_excluded_count := size excluded;
                  o_eligible_size := length eligible;
                  o_used_fallback := len picks <? k |} in
    ret (output_rows ++ [out], warnings).

Definition process_application (cfg : config)
    (exclusion_cols : list string) (global_reviewers : list Z)
    (acc : list out_row * list warning) (row : gmap string pyval)
  : M (list out_row * list warning) :=
  let app_id := row_get row APPLICATION_ID in
  excluded <- lift (build_exclusion_set row exclusion_cols) ;;
  let eligible := filter (λ rid, rid ∉ excluded) global_reviewers in
  picks <- choose_reviewers_with_minmax eligible
            (ASSIGNMENTS_PER_APPLICATION cfg)
            (MIN_ASSIGNMENTS_PER_REVIEWER cfg)
            (MAX_ASSIGNMENTS_PER_REVIEWER cfg) ;;
  record_selection cfg app_id excluded eligible picks acc.

(** [for _, row in df.iterrows(): ...]; [rows] are the rows that
    [iterrows] yields. *)
Fixpoint allocation_loop (cfg : config) (exclusion_cols : list string)
    (global_reviewers : list Z) (rows : list (gmap string pyval))
    (acc : list out_row * list warning)
  : M (list out_row * list warning) :=
  match rows with
  | [] => ret acc
  | row :: rows' =>
      acc' <- process_application cfg exclusion_cols global_reviewers
               acc row ;;
      allocation_loop cfg exclusion_cols global_reviewers rows' acc'
  end.

(** [{rid: 0 for rid in global_reviewers}] *)
Definition zero_loads (global_reviewers : list Z) : gmap Z Z :=
  fold_left (λ d rid, <[rid := 0]> d) global_reviewers ∅.

(** [main()]; the result is the list of warnings printed at the end.
    The script reads the applicants table and tests for the
    [Application ID] column twice in a row; the second test repeats the
    first.  The advisory printed when the table has none of the
    exclusion columns is console output. *)
Definition main (cfg : config) (df : dataframe)
    (reviewers : list (list string)) : M (list warning) :=
  _ <- match SEED cfg with
       | Some n => random_seed n
       | None => ret tt
       end ;;
  if decide (APPLICATION_ID ∉ df_columns df)
  then raise MissingApplicationId
  else
    let exclusion_cols := get_exclusion_cols cfg df in
    reviewer_ids <- lift (load_reviewer_ids reviewers) ;;
    match reviewer_ids with
    | [] => raise NoReviewerIds
    | _ =>
        global_reviewers <- random_shuffle reviewer_ids ;;
        _ <- loads_bind (zero_loads global_reviewers) ;;
        acc <- allocation_loop cfg exclusion_cols global_reviewers
                 (df_rows df) ([], []) ;;
        let '(output_rows, warnings) := acc in
        _ <- to_csv output_rows ;;
        ret warnings
    end.

(** The state of a process that has not run [main] yet: some
    generator state, no load table, and whatever the output file
    holds. *)
Definition initial_store (g : rng) (file : option (list out_row)) : store :=
  {| st_rng := g; st_loads := ∅; st_file := file |}.

(** ** Notions used in the statements *)

(** The pool left by the hard cap, the two partitions of the soft
    minimum, and the minimum when the policy is active. *)
Definition capped_pool (loads : gmap Z Z) (max_load : option Z)
    (pool : list Z) : list Z :=
  match max_load with
  | Some mx => filter (λ rid, load_of loads rid < mx) pool
  | None => pool
  end.
Definition under_min_of (loads : gmap Z Z) (mn : Z) (pool : list Z)
  : list Z := filter (λ rid, load_of loads rid < mn) pool.
Definition at_or_above_min_of (loads : gmap Z Z) (mn : Z) (pool : list Z)
  : list Z := filter (λ rid, mn <= load_of loads rid) pool.
Definition soft_min (min_load : option Z) : option Z :=
  match min_load with
  | Some mn => if mn <=? 0 then None else Some mn
  | None => None
  end.

(** The load table after the commit loop over [picks]. *)
Definition commit_loads (picks : list Z) (loads : gmap Z Z) : gmap Z Z :=
  fold_left (λ d rid, <[rid := load_of d rid + 1]> d) picks loads.

(** The output record and the under-fill warning of one application. *)
Definition out_record (cfg : config) (app_id : pyval) (excluded : gset Z)
    (eligible picks : list Z) : out_row :=
  {| o_app_id := app_id;
     o_assigned := assigned_cells (ASSIGNMENTS_PER_APPLICATION cfg) picks;
     o_excluded_count := size excluded;
     o_eligible_size := length eligible;
     o_used_fallback := len picks <? ASSIGNMENTS_PER_APPLICATION cfg |}.
Definition underfill_warning (cfg : config) (app_id : pyval)
    (picks : list Z) : warning :=
  {| w_app_id := app_id; w_found := length picks;
     w_needed := ASSIGNMENTS_PER_APPLICATION cfg |}.

(** The reviewers named in the cells of an output record. *)
Definition assigned_reviewers (o : out_row) : list Z :=
  omap (λ v, match v with PyInt rid => Some rid | _ => None end)
       (o_assigned o).

(** [out] is the record of the application [row] in a run over the
    shuffled pool [gr] that ended with the warnings [ws]: the record
    built from the exclusion set of the row and from picks that
    belong to the pool, avoid the exclusion set and number at most
    [k]; when the picks are fewer than [k] their warning is in [ws]. *)
Definition application_record (cfg : config) (cols : list string)
    (gr : list Z) (ws : list warning) (row : gmap string pyval)
    (out : out_row) : Prop :=
  let k := ASSIGNMENTS_PER_APPLICATION cfg in
  let app_id := row_get row APPLICATION_ID in
  ∃ (ex : gset Z) (picks : list Z),
    build_exclusion_set row cols = Returned ex
    ∧ (∀ rid, rid ∈ picks → rid ∈ gr ∧ rid ∉ ex)
    ∧ len picks <= Z.max 0 k
    ∧ out = out_record cfg app_id ex (filter (λ rid, rid ∉ ex) gr) picks
    ∧ (len picks < k → underfill_warning cfg app_id picks ∈ ws).

Definition set_rng (g : rng) (s : store) : store :=
  {| st_rng := g; st_loads := st_loads s; st_file := st_file s |}.
Definition set_loads (d : gmap Z Z) (s : store) : store :=
  {| st_rng := st_rng s; st_loads := d; st_file := st_file s |}.

(** Every load of the table is at most [mx]. *)
Definition loads_bounded (mx : Z) (s : store) : Prop :=
  ∀ rid, load_of (st_loads s) rid <= mx.

(** The store once [random.seed(SEED)] has run. *)
Definition seeded (cfg : config) (s : store) : store :=
  match SEED cfg with
  | Some n => set_rng (seed n) s
  | None => s
  end.

(** The applicants table cut after its first [n] records. *)
Definition first_applications (n : nat) (df : dataframe) : dataframe :=
  {| df_columns := df_columns df; df_rows := take n (df_rows df) |}.

(** Every exclusion cell of the applicants table is within the digit
    limit of [int]. *)
Definition table_within_limit (cfg : config) (df : dataframe) : bool :=
  forallb (row_within_limit (get_exclusion_cols cfg df)) (df_rows df).

End engine.

Arguments store {_}.
Arguments M {_} A.

(** ** A reference runtime

    One implementation of the two runtime interfaces, used to run the
    script on concrete tables: a float parser given by a finite table
    of literals with the value Python's [float] gives them (every other
    string is rejected, as [float] rejects ["abc"] or ["n/a"]), and a
    linear congruential generator that samples by drawing positions
    without replacement. *)

Definition float_literals : list (string * spec_float) :=
  [("7.5", S754_finite false 15 (-1));
   ("7.", S754_finite false 7 0);
   ("+7", S754_finite false 7 0);
   ("-3", S754_finite true 3 0);
   ("-3.5", S754_finite true 7 (-1));
   ("1e3", S754_finite false 125 3);
   ("-0.0", S754_zero true);
   ("inf", S754_infinity false);
   ("nan", S754_nan)]%string.

Definition table_float_syntax : PyFloatParser :=
  λ s, snd <$> List.find (λ e, String.eqb (fst e) (string_of_list_ascii s))
                 float_literals.

Module Lcg.

Definition step (g : Z) : Z := (1103515245 * g + 12345) mod 2 ^ 31.

(** A position below [n], from the high bits of the state. *)
Definition randbelow (n : nat) (g : Z) : nat :=
  Z.to_nat ((g / 65536) mod Z.of_nat n).

Fixpoint draw (k : nat) (pool : list Z) (g : Z) : list Z * Z :=
  match k with
  | O => ([], g)
  | S k' =>
      let j := randbelow (length pool) g in
      match pool !! j with
      | Some x =>
          let '(r, g') := draw k' (delete j pool) (step g) in (x :: r, g')
      | None => ([], g)
      end
  end.

Definition shuffle (l : list Z) (g : Z) : list Z * Z := draw (length l) l g.

End Lcg.

(** ** Concrete tables

    A small run: five reviewers (the reviewers file also holds an empty
    row, a header and a duplicate), four applications, and the bounds
    [k = 3], [min = 1], [max = 2]. *)
Module Demo.

Definition cfg : config := {|
  ASSIGNMENTS_PER_APPLICATION := 3;
  SEED := Some 42;
  MAX_ASSIGNMENTS_PER_REVIEWER := Some 2;
  MIN_ASSIGNMENTS_PER_REVIEWER := Some 1;
  EXCLUSION_COL_CANDIDATES := ["Reviewer 1"; "Reviewer 2"; "Reviewer 3"]%string;
|}.

Definition reviewers : list (list string) :=
  [["Reviewer ID"]; ["1"]; ["2"]; []; ["3"]; ["2"]; [" 4 "; "x"]; ["5.0"]]%string.

Definition application (app_id : string) (r1 r2 : pyval)
  : gmap string pyval :=
  <[APPLICATION_ID := PyStr app_id]>
    (<["Reviewer 1"%string := r1]> (<["Reviewer 2"%string := r2]> ∅)).

Definition df : dataframe := {|
  df_columns := [APPLICATION_ID; "Reviewer 1"; "Reviewer 2"]%string;
  df_rows :=
    [application "A" (PyInt 1) PyNone;
     application "B" (PyStr "2") (PyFloat (S754_finite false 3 0));
     application "C" PyNone PyNone;
     application "D" (PyStr "n/a") (PyInt 5)];
|}.

Definition df_no_id : dataframe := {|
  df_columns := ["Title"; "Reviewer 1"]%string;
  df_rows := [];
|}.

(** A table without any exclusion column, and a table without
    records. *)
Definition df_plain : dataframe := {|
  df_columns := [APPLICATION_ID; "Title"]%string;
  df_rows :=
    [<[APPLICATION_ID := PyStr "P"]> (<["Title"%string := PyStr "p"]> ∅);
     <[APPLICATION_ID := PyInt 17]> (<["Title"%string := PyNone]> ∅)];
|}.

Definition df_empty : dataframe := {|
  df_columns := [APPLICATION_ID; "Reviewer 1"]%string;
  df_rows := [];
|}.

(** A cell of 4301 digits, a reviewers file that has it as a first
    cell, and an applicants table that has it as an exclusion cell. *)
Definition long_digits : string :=
  string_of_list_ascii (replicate 4301 "7"%char).

Definition reviewers_long : list (list string) :=
  [["1"%string]; [long_digits]; ["2"%string]].

Definition df_long : dataframe := {|
  df_columns := [APPLICATION_ID; "Reviewer 1"; "Reviewer 2"]%string;
  df_rows :=
    [application "A" (PyInt 1) PyNone;
     application "L" (PyStr long_digits) PyNone];
|}.

End Demo.

(** ** Reference notions for the remaining properties

    Declarative counterparts of the loops of the script, against which
    the loops are compared. *)

(** The strings of the language of [^\s*(\d+)(?:\.0+)?\s*$] whose
    group 1 is [g]: white space, the digits [g], possibly a dot
    followed by at least one zero, white space. *)
Definition id_pattern_shape (s g : list ascii) : Prop :=
  ∃ ws1 zs ws2 : list ascii,
    forallb is_space ws1 = true
    ∧ g ≠ [] ∧ forallb is_digit g = true
    ∧ forallb is_zero zs = true
    ∧ forallb is_space ws2 = true
    ∧ s = ws1 ++ g
          ++ match zs with [] => [] | _ => "."%char :: zs end ++ ws2.

(** The integer [z] is exactly the value of the float [f]. *)
Definition float_is (f : spec_float) (z : Z) : Prop :=
  match f with
  | S754_zero _ => z = 0
  | S754_finite s m e =>
      if 0 <=? e
      then z = (if s then - Z.pos m else Z.pos m) * 2 ^ e
      else z * 2 ^ (- e) = (if s then - Z.pos m else Z.pos m)
  | S754_infinity _ | S754_nan => False
  end.

(** The decimal writing of a natural number, as [str] writes a
    non-negative integer. *)
Definition decimal_text (n : nat) : string :=
  NilZero.string_of_uint (Nat.to_uint n).

(** A list without its repetitions, each element staying at its first
    occurrence. *)
Fixpoint first_occurrences (l : list Z) : list Z :=
  match l with
  | [] => []
  | x :: l' => x :: filter (λ y, y ≠ x) (first_occurrences l')
  end.

Section reference_notions.
Context `{!PyFloatParser}.

(** The identifier of a value, when it has one ([None] also for a
    value on which the normalizer raises). *)
Definition normalized (val : pyval) : option Z :=
  match normalize_id val with
  | Returned r => r
  | Raised _ => None
  end.

(** The identifiers of the first cells of the rows of the reviewers
    file, in order, repetitions included. *)
Definition candidate_ids (rows : list (list string)) : list Z :=
  omap (λ row, match row with
               | raw :: _ => normalized (PyStr raw)
               | [] => None
               end) rows.

(** The exclusion set of a record. *)
Definition exclusion_of (cols : list string) (row : gmap string pyval)
  : gset Z :=
  list_to_set (omap (λ col, normalized (row_get row col)) cols).

(** The input [val] denotes the negative integer [z]: a negative
    integer, a float whose value is a negative integer, or a string
    that is not blank, that the digit pattern rejects once stripped and
    freed of its commas, and that [float] then reads as a float whose
    value is a negative integer. *)
Definition negative_reading (val : pyval) (z : Z) : Prop :=
  z < 0
  ∧ match val with
    | PyNone => False
    | PyInt n => z = n
    | PyFloat f => float_is f z
    | PyStr str =>
        let s := strip (list_ascii_of_string str) in
        s ≠ []
        ∧ match_id_pattern (remove_commas s) = None
        ∧ ∃ f, float_of_str (remove_commas s) = Some f ∧ float_is f z
    end.

End reference_notions.

(** [out] is the record that the driver builds for [row], whose
    exclusion set the resolver has returned, from some picks: distinct
    members of the pool [gr] outside the exclusion set of the row, at
    most [k] of them. *)
Definition record_of `{!PyFloatParser} (cfg : config) (cols : list string)
    (gr : list Z) (row : gmap string pyval) (out : out_row) : Prop :=
  let ex := exclusion_of cols row in
  build_exclusion_set row cols = Returned ex
  ∧ ∃ picks : list Z,
    NoDup picks
    ∧ (∀ rid, rid ∈ picks → rid ∈ gr ∧ rid ∉ ex)
    ∧ len picks <= Z.max 0 (ASSIGNMENTS_PER_APPLICATION cfg)
    ∧ out = out_record cfg (row_get row APPLICATION_ID) ex
              (filter (λ rid, rid ∉ ex) gr) picks.

(** The load table after the commits of the records [outs]. *)
Definition loads_after (outs : list out_row) (loads : gmap Z Z) : gmap Z Z :=
  fold_left (λ d out, commit_loads (assigned_reviewers out) d) outs loads.

(** The warning that an output record calls for, if any. *)
Definition warning_of_record (k : Z) (out : out_row) : option warning :=
  if o_used_fallback out
  then Some {| w_app_id := o_app_id out;
               w_found := length (assigned_reviewers out);
               w_needed := k |}
  else None.

(** * Properties *)

(** ** The reference runtime meets the contract of the generator *)

Lemma lcg_randbelow_lt (n : nat) (g : Z) :
  (0 < n)%nat → (Lcg.randbelow n g < n)%nat.
Proof.
  intros Hn. unfold Lcg.randbelow.
  assert (0 <= (g / 65536) mod Z.of_nat n < Z.of_nat n)
    by (apply Z.mod_pos_bound; lia).
  lia.
Qed.

Lemma lcg_draw_perm (k : nat) :
  ∀ (pool : list Z) (g : Z),
    (k ≤ length pool)%nat →
    length (Lcg.draw k pool g).1 = k
    ∧ ∃ rest, (Lcg.draw k pool g).1 ++ rest ≡ₚ pool.
Proof.
  induction k as [|k IH]; intros pool g Hk; simpl.
  - split; [reflexivity|]. exists pool. reflexivity.
  - pose proof (lcg_randbelow_lt (length pool) g ltac:(lia)) as Hj.
    destruct (lookup_lt_is_Some_2 pool _ Hj) as [x Hx]. rewrite Hx.
    specialize (IH (delete (Lcg.randbelow (length pool) g) pool)
                  (Lcg.step g)).
    destruct (Lcg.draw k _ _) as [r g'] eqn:Hd. simpl in *.
    destruct IH as [Hlen [rest Hrest]].
    { rewrite length_delete by eauto. lia. }
    split; [lia|]. exists rest.
    rewrite Hrest. symmetry. by apply delete_Permutation.
Qed.

Lemma lcg_shuffle_perm (l : list Z) (g : Z) : (Lcg.shuffle l g).1 ≡ₚ l.
Proof.
  unfold Lcg.shuffle.
  destruct (lcg_draw_perm (length l) l g (le_n _)) as [Hlen [rest Hrest]].
  assert (rest = []) as ->.
  { apply Permutation_length in Hrest. rewrite length_app in Hrest.
    destruct rest; [done | simpl in Hrest; lia]. }
  by rewrite app_nil_r in Hrest.
Qed.

Definition lcg_random : PyRandom := {|
  rng := Z;
  seed := λ n, n mod 2 ^ 31;
  shuffle := Lcg.shuffle;
  sample := λ l k g, Lcg.draw k l g;
  shuffle_perm := lcg_shuffle_perm;
  sample_perm := λ l k g, lcg_draw_perm k l g;
|}.

(** ** Identifier normalizer *)

Section normalizer_facts.
Context `{!PyFloatParser}.

Lemma int_of_float_nonneg (f : spec_float) (z : Z) :
  int_of_float f = Returned z →
  0 <= z ∨ match f with S754_finite true _ _ => True | _ => False end.
Proof.
  destruct f as [s|s| |s m e]; simpl; try discriminate.
  - intros [= <-]. left. lia.
  - intros [= <-]. destruct s; [by right|left].
    destruct (0 <=? e) eqn:He.
    + apply Z.leb_le in He. apply Z.mul_nonneg_nonneg; [lia|].
      apply Z.pow_nonneg. lia.
    + apply Z.div_pos; [lia|]. apply Z.pow_pos_nonneg; lia.
Qed.

Lemma int_of_float_integer (f : spec_float) :
  is_integer f = true → ∃ z, int_of_float f = Returned z.
Proof. destruct f; simpl; try discriminate; eauto. Qed.

Lemma digit_value_bounds (c : ascii) :
  is_digit c = true → 0 <= Z.of_nat (code c) - 48 <= 9.
Proof.
  unfold is_digit. intros Hc. apply andb_true_iff in Hc as [H1 H2].
  apply Nat.leb_le in H1, H2. lia.
Qed.

Lemma int_of_digits_acc_nonneg (ds : list ascii) :
  ∀ acc, 0 <= acc → Forall (λ c, is_digit c = true) ds →
    0 <= fold_left (λ a c, 10 * a + (Z.of_nat (code c) - 48)) ds acc.
Proof.
  induction ds as [|c ds IH]; intros acc Hacc Hds; simpl; [done|].
  inversion Hds; subst. apply IH; [|done].
  pose proof (digit_value_bounds c ltac:(done)). lia.
Qed.

Lemma int_of_digits_nonneg (ds : list ascii) :
  Forall (λ c, is_digit c = true) ds → 0 <= int_of_digits ds.
Proof. intros. by apply int_of_digits_acc_nonneg. Qed.

Lemma take_while_Forall (p : ascii → bool) (s : list ascii) :
  Forall (λ c, p c = true) (take_while p s).
Proof.
  induction s as [|c s IH]; simpl; [constructor|].
  destruct (p c) eqn:Hc; by constructor.
Qed.

Lemma match_id_pattern_digits (s g1 : list ascii) :
  match_id_pattern s = Some g1 → Forall (λ c, is_digit c = true) g1.
Proof.
  unfold match_id_pattern.
  pose proof (take_while_Forall is_digit (drop_while is_space s)) as Hd.
  destruct (take_while is_digit (drop_while is_space s)) as [|d ds] eqn:E;
    [done|].
  destruct (drop_while is_digit (drop_while is_space s)) as [|c rest].
  - by intros [= <-].
  - destruct (is_dot c).
    + destruct (take_while is_zero rest); [done|].
      destruct (forallb _ _); [by intros [= <-] | done].
    + destruct (forallb _ _); [by intros [= <-] | done].
Qed.

Lemma int_of_str_within (ds : list ascii) :
  Z.of_nat (length ds) <= INT_MAX_STR_DIGITS →
  int_of_str ds = Returned (int_of_digits ds).
Proof.
  intros Hl. unfold int_of_str.
  by destruct (Z.ltb_spec INT_MAX_STR_DIGITS (Z.of_nat (length ds)));
    [lia|].
Qed.

Lemma int_of_str_beyond (ds : list ascii) :
  INT_MAX_STR_DIGITS < Z.of_nat (length ds) →
  int_of_str ds = Raised IntDigitsLimit.
Proof.
  intros Hl. unfold int_of_str.
  by destruct (Z.ltb_spec INT_MAX_STR_DIGITS (Z.of_nat (length ds)));
    [|lia].
Qed.

(** Within the digit limit the normalizer returns, and what it
    returns is [None], a non-negative integer, or the integer of an
    input that carries a minus sign. *)
Lemma normalize_id_cases (val : pyval) :
  within_digit_limit val = true →
  ∃ r, normalize_id val = Returned r
       ∧ match r with
         | None => True
         | Some z => 0 <= z ∨ signed_input val = true
         end.
Proof.
  destruct val as [|z|f|str]; cbn [within_digit_limit normalize_id].
  - intros _. by exists None.
  - intros _. exists (Some z). split; [done|]. simpl.
    destruct (Z.ltb_spec z 0); auto.
  - intros _. simpl. destruct (isnan f); [by exists None|].
    destruct (is_integer f) eqn:Hi; [|by exists None].
    destruct (int_of_float_integer f Hi) as [z Hz]. rewrite Hz. simpl.
    exists (Some z). split; [done|].
    destruct (int_of_float_nonneg f z Hz) as [?|Hs]; [by left|right].
    by destruct f as [| | |[] ? ?].
  - cbv zeta. unfold signed_input.
    destruct (strip (list_ascii_of_string str)) as [|c s] eqn:Es;
      [by exists None|].
    destruct (match_id_pattern (remove_commas (c :: s))) as [g1|] eqn:Em.
    + intros Hlim. apply Z.leb_le in Hlim.
      rewrite (int_of_str_within g1 Hlim). cbn [obind].
      exists (Some (int_of_digits g1)). split; [done|]. left.
      eapply int_of_digits_nonneg, match_id_pattern_digits; eauto.
    + intros _.
      destruct (float_of_str (remove_commas (c :: s))) as [f|] eqn:Ef;
        [|by exists None].
      destruct (is_integer f) eqn:Hi; [|by exists None].
      destruct (int_of_float_integer f Hi) as [z Hz]. rewrite Hz. simpl.
      exists (Some z). split; [done|].
      destruct (int_of_float_nonneg f z Hz) as [?|Hs]; [by left|right].
      by destruct f as [| | |[] ? ?].
Qed.

(** Past the digit limit [int] raises, and the normalizer with it:
    the call of [int] is not inside the [try] that guards [float]. *)
Lemma normalize_id_beyond (val : pyval) :
  within_digit_limit val = false →
  normalize_id val = Raised IntDigitsLimit.
Proof.
  destruct val as [|z|f|str]; cbn [within_digit_limit normalize_id];
    try discriminate.
  cbv zeta.
  destruct (strip (list_ascii_of_string str)) as [|c s] eqn:Es;
    [done|].
  destruct (match_id_pattern (remove_commas (c :: s))) as [g1|]; [|done].
  intros Hlim. apply Z.leb_gt in Hlim.
  by rewrite (int_of_str_beyond g1 Hlim).
Qed.

End normalizer_facts.

Lemma normalize_id_returns `{!PyFloatParser} (val : pyval) :
  within_digit_limit val = true → ∃ r, normalize_id val = Returned r.
Proof.
  intros Hlim. destruct (normalize_id_cases val Hlim) as [r [Hr _]]. eauto.
Qed.

(** The normalizer returns or raises the error of the digit limit;
    it raises nothing else. *)
Lemma normalize_id_outcome `{!PyFloatParser} (val : pyval) :
  (within_digit_limit val = true ∧ ∃ r, normalize_id val = Returned r)
  ∨ (within_digit_limit val = false
     ∧ normalize_id val = Raised IntDigitsLimit).
Proof.
  destruct (within_digit_limit val) eqn:Hlim.
  - left. split; [done|]. by apply normalize_id_returns.
  - right. split; [done|]. by apply normalize_id_beyond.
Qed.

(** The float route: an integral float gives its integer value, any
    other float gives [None]; the conversion does not raise on an
    integral float. *)
Lemma float_route_exact (f : spec_float) :
  ∃ r : option Z,
    (if is_integer f
     then obind (int_of_float f) (λ z, Returned (Some z))
     else Returned None) = Returned r
    ∧ ∀ z, r = Some z ↔ float_is f z.
Proof.
  destruct f as [s|s| |s m e]; simpl.
  - exists (Some 0). split; [done|]. intros z.
    split; [by intros [= <-] | by intros ->].
  - exists None. split; [done|]. intros z. split; [done | tauto].
  - exists None. split; [done|]. intros z. split; [done | tauto].
  - destruct (Z.leb_spec 0 e) as [He|He]; simpl.
    + eexists. split; [done|]. intros z.
      destruct s; split; intros Hz;
        ((injection Hz as <-; lia) || (f_equal; lia)).
    + assert (0 < 2 ^ (- e)) as Hp by (apply Z.pow_pos_nonneg; lia).
      destruct (Z.eqb_spec (Z.pos m mod 2 ^ (- e)) 0) as [Hm|Hm]; simpl.
      * assert (Z.pos m = 2 ^ (- e) * (Z.pos m / 2 ^ (- e))) as Hex
          by (apply Z_div_exact_full_2; lia).
        eexists. split; [done|]. intros z. split.
        -- intros [= <-]. destruct s; lia.
        -- intros Hz. f_equal. destruct s; nia.
      * exists None. split; [done|]. intros z. split; [done|].
        intros Hz. exfalso. apply Hm. destruct s.
        -- replace (Z.pos m) with ((- z) * 2 ^ (- e)) by lia.
           apply Z_mod_mult.
        -- rewrite <- Hz. apply Z_mod_mult.
Qed.

(** C5 (as amended).  For every input value (absent, integer, float or
    string) on which [int] stays within its digit limit, and whatever
    the runtime's float parser answers, the normalizer returns [None]
    or an integer.  The integer is non-negative unless the input
    denotes a negative integer (a negative integer, a float whose value
    is a negative integer, or a non-blank string that the digit pattern
    rejects and that [float] reads as such a float); and for every
    input that denotes a negative integer, that negative integer is
    what the normalizer returns. *)
Theorem normalize_id_total_and_sign (P : PyFloatParser) (val : pyval) :
  within_digit_limit val = true →
  ∃ r : option Z,
    normalize_id val = Returned r
    ∧ (∀ z, r = Some z → 0 <= z ∨ negative_reading val z)
    ∧ (∀ z, negative_reading val z → r = Some z).
Proof.
  intros Hlim.
  assert (∀ (f : spec_float) (r : option Z),
            (∀ z, r = Some z ↔ float_is f z) →
            (∀ z, r = Some z → 0 <= z ∨ (z < 0 ∧ float_is f z))
            ∧ (∀ z, z < 0 ∧ float_is f z → r = Some z)) as Hfloat.
  { intros f r Hr. split.
    - intros z Hz. destruct (Z.le_gt_cases 0 z); [by left|right].
      split; [lia|]. by apply Hr.
    - intros z [_ Hz]. by apply Hr. }
  destruct val as [|n|f|str];
    cbn [normalize_id within_digit_limit] in *.
  - exists None. split; [done|]. split; [done|]. by intros z [_ []].
  - exists (Some n). split; [done|]. split.
    + intros z [= <-]. destruct (Z.le_gt_cases 0 n); [by left|right].
      split; [lia | done].
    + by intros z [_ ->].
  - destruct (float_route_exact f) as (r & Hrun & Hr).
    destruct (isnan f) eqn:Hnan.
    + destruct f; try discriminate. exists None.
      split; [done|]. split; [done|]. by intros z [_ []].
    + exists r. split; [exact Hrun|]. by apply Hfloat.
  - unfold negative_reading. cbv zeta in *.
    destruct (strip (list_ascii_of_string str)) as [|c s] eqn:Es.
    { exists None. split; [done|]. split; [done|].
      by intros z (_ & [] & _). }
    destruct (match_id_pattern (remove_commas (c :: s))) as [g1|] eqn:Em.
    + apply Z.leb_le in Hlim. rewrite (int_of_str_within g1 Hlim).
      cbn [obind]. eexists. split; [done|]. split.
      * intros z [= <-]. left.
        eapply int_of_digits_nonneg, match_id_pattern_digits; eauto.
      * by intros z (_ & _ & [=] & _).
    + destruct (float_of_str (remove_commas (c :: s))) as [f|] eqn:Ef.
      * destruct (float_route_exact f) as (r & Hrun & Hr).
        exists r. split; [exact Hrun|].
        destruct (Hfloat f r Hr) as [Hpos Hneg]. split.
        -- intros z Hz. destruct (Hpos z Hz) as [?|[Hlt Hfz]];
             [by left|right].
           split; [done|]. split; [done|]. split; [done|]. by exists f.
        -- intros z (Hlt & _ & _ & f' & [= <-] & Hfz). by apply Hneg.
      * exists None. split; [done|]. split; [done|].
        by intros z (_ & _ & _ & f' & [=] & _).
Qed.

(** C5 as stated fails: a negative integer is returned unchanged, a
    negative integral float and the text of a negative number give
    their negative integer, so the normalizer does return negative
    identifiers. *)
Lemma normalize_id_negative_counterexample :
  @normalize_id table_float_syntax (PyInt (-5)) = Returned (Some (-5))
  ∧ @normalize_id table_float_syntax (PyFloat (S754_finite true 3 0))
    = Returned (Some (-3))
  ∧ @normalize_id table_float_syntax (PyStr "-3") = Returned (Some (-3))
  ∧ ¬ (∀ (P : PyFloatParser) (val : pyval) (z : Z),
         normalize_id val = Returned (Some z) → 0 <= z).
Proof.
  split; [reflexivity|]. split; [reflexivity|]. split; [reflexivity|].
  intros Hall.
  specialize (Hall table_float_syntax (PyInt (-5)) (-5) eq_refl). lia.
Qed.

(** *** Commas *)

Lemma drop_while_id (p : ascii → bool) (s : list ascii) :
  Forall (λ c, p c = false) s → drop_while p s = s.
Proof. destruct 1 as [|c s Hc _]; simpl; [done|]. by rewrite Hc. Qed.

Lemma drop_while_all (p : ascii → bool) (s : list ascii) :
  Forall (λ c, p c = true) s → drop_while p s = [].
Proof. induction 1 as [|c s Hc _ IH]; simpl; [done|]. by rewrite Hc. Qed.

Lemma take_while_all (p : ascii → bool) (s : list ascii) :
  Forall (λ c, p c = true) s → take_while p s = s.
Proof.
  induction 1 as [|c s Hc _ IH]; simpl; [done|]. by rewrite Hc, IH.
Qed.

Lemma strip_id (s : list ascii) :
  Forall (λ c, is_space c = false) s → strip s = s.
Proof.
  intros Hs. unfold strip. rewrite (drop_while_id _ s Hs).
  rewrite drop_while_id; [apply reverse_involutive|].
  by apply Forall_reverse.
Qed.

Lemma digit_not_space (c : ascii) : is_digit c = true → is_space c = false.
Proof.
  unfold is_digit, is_space. intros Hc.
  apply andb_true_iff in Hc as [H1 H2]. apply Nat.leb_le in H1, H2.
  repeat (apply orb_false_iff; split);
    try (apply andb_false_iff);
    rewrite ?Nat.leb_gt, ?Nat.eqb_neq; lia.
Qed.

Lemma comma_not_space (c : ascii) : is_comma c = true → is_space c = false.
Proof.
  unfold is_comma, is_space. intros Hc. apply Nat.eqb_eq in Hc.
  rewrite Hc. reflexivity.
Qed.

Lemma match_id_pattern_all_digits (d : list ascii) :
  d ≠ [] → Forall (λ c, is_digit c = true) d →
  match_id_pattern d = Some d.
Proof.
  intros Hne Hd. unfold match_id_pattern.
  rewrite (drop_while_id is_space d)
    by (eapply Forall_impl; [exact Hd | apply digit_not_space]).
  rewrite (take_while_all _ _ Hd), (drop_while_all _ _ Hd).
  by destruct d.
Qed.

Lemma normalize_digits_and_commas `{!PyFloatParser} (str : string) :
  digits_and_commas (list_ascii_of_string str) = true →
  existsb is_digit (list_ascii_of_string str) = true →
  normalize_id (PyStr str)
  = obind (int_of_str (remove_commas (list_ascii_of_string str)))
      (λ z, Returned (Some z)).
Proof.
  intros Hdc Hex. unfold normalize_id.
  set (s := list_ascii_of_string str) in *.
  unfold digits_and_commas in Hdc.
  rewrite forallb_forall, <- List.Forall_forall in Hdc.
  assert (Forall (λ c, is_space c = false) s) as Hns.
  { eapply Forall_impl; [exact Hdc|]. intros c Hc. simpl in Hc.
    apply orb_true_iff in Hc as [Hc|Hc];
      [by apply digit_not_space | by apply comma_not_space]. }
  rewrite (strip_id s Hns).
  assert (Forall (λ c, is_digit c = true) (remove_commas s)) as Hd.
  { unfold remove_commas. clear Hex Hns.
    induction Hdc as [|c s' Hc _ IH]; simpl; [constructor|].
    destruct (is_comma c) eqn:Hcm; simpl; [done|].
    constructor; [|done]. by rewrite orb_false_r in Hc. }
  assert (remove_commas s ≠ []) as Hne.
  { apply existsb_exists in Hex as [c [Hin Hc]]. intros Hnil.
    assert (In c (remove_commas s)) as Hin'.
    { unfold remove_commas. apply filter_In. split; [done|].
      unfold is_comma. unfold is_digit in Hc.
      apply andb_true_iff in Hc as [H1 H2]. apply Nat.leb_le in H1, H2.
      apply negb_true_iff, Nat.eqb_neq. lia. }
    rewrite Hnil in Hin'. destruct Hin'. }
  destruct s as [|c s']; [done|].
  by rewrite (match_id_pattern_all_digits _ Hne Hd).
Qed.

(** C10.  Commas are deleted wherever they stand, before the pattern
    is tried and before the numeric parse: (1) two strings that are not
    blank and that agree once stripped and freed of their commas
    normalize to the same outcome; (2) a string made of decimal digits
    and commas only, with at least one digit and no more digits than
    [int] converts, normalizes to the integer written by its digits,
    whether or not the commas group the digits by thousands; so
    ["1,2"] gives 12 and ["12,34"] gives 1234. *)
Theorem normalize_id_ignores_commas (P : PyFloatParser) (str : string) :
  let s := list_ascii_of_string str in
  (∀ str' : string,
      let s' := list_ascii_of_string str' in
      strip s ≠ [] → strip s' ≠ [] →
      remove_commas (strip s) = remove_commas (strip s') →
      normalize_id (PyStr str) = normalize_id (PyStr str'))
  ∧ (digits_and_commas s = true →
     existsb is_digit s = true →
     Z.of_nat (length (remove_commas s)) <= INT_MAX_STR_DIGITS →
     normalize_id (PyStr str)
     = Returned (Some (int_of_digits (remove_commas s)))).
Proof.
  intros s. split.
  2: { intros Hdc Hex Hlen.
       rewrite (normalize_digits_and_commas str Hdc Hex).
       fold s. by rewrite (int_of_str_within _ Hlen). }
  intros str' s' Hs Hs' Heq. unfold normalize_id. fold s s'.
  destruct (strip s) as [|c t]; [done|].
  destruct (strip s') as [|c' t']; [done|].
  by rewrite Heq.
Qed.

Lemma normalize_id_ignores_commas_witness :
  @normalize_id table_float_syntax (PyStr "1,2") = Returned (Some 12)
  ∧ @normalize_id table_float_syntax (PyStr "12,34") = Returned (Some 1234)
  ∧ @normalize_id table_float_syntax (PyStr ",-,3,")
    = @normalize_id table_float_syntax (PyStr "-3").
Proof.
  split; [|split].
  - apply (proj2 (normalize_id_ignores_commas table_float_syntax "1,2"));
      [reflexivity | reflexivity | vm_compute; discriminate].
  - apply (proj2 (normalize_id_ignores_commas table_float_syntax "12,34"));
      [reflexivity | reflexivity | vm_compute; discriminate].
  - apply (proj1 (normalize_id_ignores_commas table_float_syntax ",-,3,")
             "-3"); [vm_compute; discriminate | vm_compute; discriminate
                    | reflexivity].
Defined.

(** ** The monad and the selector *)

Section selector_facts.
Context `{!PyFloatParser} `{!PyRandom}.

Lemma store_eta (s : store) :
  {| st_rng := st_rng s; st_loads := st_loads s; st_file := st_file s |}
  = s.
Proof. by destruct s. Qed.

(** A comprehension whose test only reads the load table is a
    filter, and leaves the store as it is. *)
Lemma filterM_loads (f : Z → bool) (Q : Z → Prop)
    `{!∀ x, Decision (Q x)} (xs : list Z) (s : store) :
  (∀ x, f x = true ↔ Q x) →
  filterM (λ rid, bind (loads_get rid) (λ l, ret (f l))) xs s
  = (Returned (filter (λ rid, Q (load_of (st_loads s) rid)) xs), s).
Proof.
  intros Hf. induction xs as [|x xs IH]; [done|].
  cbn [filterM]. unfold bind at 1. unfold bind at 1.
  unfold loads_get at 1. unfold ret at 1.
  unfold bind at 1. rewrite IH. unfold ret.
  rewrite filter_cons. destruct (f _) eqn:Hfx.
  - apply Hf in Hfx. by rewrite decide_True.
  - rewrite decide_False; [done|]. intros HQ. apply Hf in HQ. congruence.
Qed.

Lemma cap_filter_run (max_load : option Z) (pool : list Z) (s : store) :
  match max_load with
  | Some mx =>
      filterM (λ rid, bind (loads_get rid) (λ l, ret (l <? mx))) pool
  | None => ret pool
  end s
  = (Returned (capped_pool (st_loads s) max_load pool), s).
Proof.
  destruct max_load as [mx|]; [|done]. unfold capped_pool.
  exact (filterM_loads (λ l, l <? mx) (λ l, l < mx) pool s
           (λ x, Z.ltb_lt x mx)).
Qed.

(** The picks of the soft-minimum branch are the first [k] elements
    of the shuffled under-minimum group followed by the shuffled
    rest. *)
Lemma soft_min_picks (k : Z) (u a : list Z) :
  (let picks := [] in
   let need := k in
   let take_n := Z.min need (len u) in
   let '(picks, need) :=
     if 0 <? take_n
     then (picks ++ take (Z.to_nat take_n) u, need - take_n)
     else (picks, need) in
   if (0 <? need) && negb (bool_decide (a = []))
   then picks ++ take (Z.to_nat (Z.min need (len a))) a
   else picks)
  = take (Z.to_nat k) (u ++ a).
Proof.
  cbv zeta. unfold len. rewrite take_app.
  assert (∀ n : Z, 0 < n →
            take (Z.to_nat (Z.min n (Z.of_nat (length a)))) a
            = take (Z.to_nat n) a) as Hfill.
  { intros n Hn. destruct (Z.le_gt_cases n (Z.of_nat (length a))).
    - rewrite Z.min_l by lia. done.
    - rewrite Z.min_r by lia. rewrite Nat2Z.id.
      rewrite !take_ge; [done | lia | lia]. }
  destruct (Z.ltb_spec 0 (Z.min k (Z.of_nat (length u)))) as [Ht|Ht].
  - assert (take (Z.to_nat (Z.min k (Z.of_nat (length u)))) u
            = take (Z.to_nat k) u) as ->.
    { destruct (Z.le_gt_cases k (Z.of_nat (length u))).
      - rewrite Z.min_l by lia. done.
      - rewrite Z.min_r by lia. rewrite Nat2Z.id.
        rewrite !take_ge; [done | lia | lia]. }
    simpl.
    destruct (Z.ltb_spec 0 (k - Z.min k (Z.of_nat (length u)))) as [Hn|Hn];
      simpl.
    + case_bool_decide as Ha; simpl.
      * subst a. by rewrite !take_nil, app_nil_r.
      * rewrite Hfill by done. do 2 f_equal. lia.
    + replace (Z.to_nat k - length u)%nat with 0%nat by lia.
      by rewrite take_0, app_nil_r.
  - assert (take (Z.to_nat k) u = []) as ->.
    { destruct u as [|x u]; [by rewrite take_nil|].
      simpl in Ht. replace (Z.to_nat k) with 0%nat by lia. done. }
    simpl.
    destruct (Z.ltb_spec 0 k) as [Hk|Hk]; simpl.
    + assert (u = []) as -> by (destruct u; [done | simpl in Ht; lia]).
      simpl. rewrite Nat.sub_0_r. case_bool_decide as Ha; simpl.
      * subst a. by rewrite take_nil.
      * by rewrite Hfill.
    + replace (Z.to_nat k) with 0%nat by lia. done.
Qed.

Lemma set_rng_same (s : store) : set_rng (st_rng s) s = s.
Proof. by destruct s. Qed.

Lemma soft_min_Some (min_load : option Z) (mn : Z) :
  soft_min min_load = Some mn → min_load = Some mn ∧ 0 < mn.
Proof.
  destruct min_load as [m|]; simpl; [|done].
  destruct (Z.leb_spec m 0); [done|]. intros [= ->]. split; [done | lia].
Qed.

Lemma choose_empty_run (pool : list Z) (k : Z) (min_load max_load : option Z)
    (s : store) :
  capped_pool (st_loads s) max_load pool = [] →
  choose_reviewers_with_minmax pool k min_load max_load s
  = (Returned [], s).
Proof.
  intros Hc. unfold choose_reviewers_with_minmax. unfold bind at 1.
  by rewrite cap_filter_run, Hc.
Qed.

Lemma choose_sample_run (pool : list Z) (k : Z)
    (min_load max_load : option Z) (s : store) :
  soft_min min_load = None →
  capped_pool (st_loads s) max_load pool ≠ [] →
  choose_reviewers_with_minmax pool k min_load max_load s
  = random_sample (capped_pool (st_loads s) max_load pool)
      (Z.min k (len (capped_pool (st_loads s) max_load pool))) s.
Proof.
  intros Hm Hc. unfold choose_reviewers_with_minmax. unfold bind at 1.
  rewrite cap_filter_run.
  destruct (capped_pool (st_loads s) max_load pool) as [|x c]; [done|].
  destruct min_load as [mn|]; [|done]. simpl in Hm.
  by destruct (mn <=? 0).
Qed.

Lemma choose_soft_min_run (pool : list Z) (k : Z)
    (min_load max_load : option Z) (mn : Z) (s : store) :
  soft_min min_load = Some mn →
  capped_pool (st_loads s) max_load pool ≠ [] →
  choose_reviewers_with_minmax pool k min_load max_load s
  = let capped := capped_pool (st_loads s) max_load pool in
    let '(u, g1) := shuffle (under_min_of (st_loads s) mn capped)
                      (st_rng s) in
    let '(a, g2) := shuffle (at_or_above_min_of (st_loads s) mn capped)
                      g1 in
    (Returned (take (Z.to_nat k) (u ++ a)), set_rng g2 s).
Proof.
  intros Hm Hc. apply soft_min_Some in Hm as [-> Hmn]. cbv zeta.
  unfold choose_reviewers_with_minmax. unfold bind at 1.
  rewrite cap_filter_run.
  destruct (capped_pool (st_loads s) max_load pool) as [|x c] eqn:Ec;
    [done|].
  destruct (Z.leb_spec mn 0); [lia|].
  unfold bind at 1.
  rewrite (filterM_loads (λ l, l <? mn) (λ l, l < mn) (x :: c) s
             (λ y, Z.ltb_lt y mn)).
  unfold bind at 1.
  rewrite (filterM_loads (λ l, mn <=? l) (λ l, mn <= l) (x :: c) s
             (λ y, Z.leb_le mn y)).
  fold (under_min_of (st_loads s) mn (x :: c)).
  fold (at_or_above_min_of (st_loads s) mn (x :: c)).
  unfold bind at 1. unfold random_shuffle at 1, with_rng at 1.
  destruct (shuffle (under_min_of (st_loads s) mn (x :: c)) (st_rng s))
    as [u g1].
  unfold bind at 1. unfold random_shuffle at 1, with_rng at 1.
  cbn [st_rng st_loads st_file].
  destruct (shuffle (at_or_above_min_of (st_loads s) mn (x :: c)) g1)
    as [a g2].
  rewrite <- (soft_min_picks k u a). cbv zeta.
  destruct (0 <? Z.min k (len u)); cbv beta iota;
    destruct (_ && _); reflexivity.
Qed.

Lemma partition_perm (loads : gmap Z Z) (mn : Z) (l : list Z) :
  under_min_of loads mn l ++ at_or_above_min_of loads mn l ≡ₚ l.
Proof.
  unfold under_min_of, at_or_above_min_of.
  rewrite (list_filter_iff (λ rid, mn <= load_of loads rid)
             (λ rid, ¬ load_of loads rid < mn)) by (intros x; lia).
  apply filter_app_complement.
Qed.

(** What a call of the selector does: it returns some picks and moves
    the generator, or (negative [k], no soft minimum, non-empty
    capped pool) [random.sample] raises. *)
Lemma choose_spec (pool : list Z) (k : Z) (min_load max_load : option Z)
    (s : store) :
  let capped := capped_pool (st_loads s) max_load pool in
  (∃ picks g' rest,
      choose_reviewers_with_minmax pool k min_load max_load s
      = (Returned picks, set_rng g' s)
      ∧ picks ++ rest ≡ₚ capped
      ∧ length picks = (Z.to_nat k `min` length capped)%nat
      ∧ (∀ mn, soft_min min_load = Some mn →
           ∃ u a, u ≡ₚ under_min_of (st_loads s) mn capped
                  ∧ a ≡ₚ at_or_above_min_of (st_loads s) mn capped
                  ∧ picks = take (Z.to_nat k) (u ++ a)))
  ∨ (k < 0 ∧ soft_min min_load = None ∧ capped ≠ []
     ∧ choose_reviewers_with_minmax pool k min_load max_load s
       = (Raised SampleOutOfRange, s)).
Proof.
  intros capped.
  destruct (decide (capped = [])) as [He|Hne].
  { left. exists [], (st_rng s), []. rewrite set_rng_same.
    split; [by apply choose_empty_run|]. rewrite He.
    split; [done|]. split; [simpl; lia|].
    intros mn _. exists [], []. simpl. by rewrite take_nil. }
  destruct (soft_min min_load) as [mn|] eqn:Hm.
  - left. rewrite (choose_soft_min_run _ _ _ _ mn) by done.
    cbv zeta. fold capped.
    pose proof (shuffle_perm (under_min_of (st_loads s) mn capped)
                  (st_rng s)) as Hu.
    destruct (shuffle (under_min_of (st_loads s) mn capped) (st_rng s))
      as [u g1]. simpl in Hu.
    pose proof (shuffle_perm (at_or_above_min_of (st_loads s) mn capped)
                  g1) as Ha.
    destruct (shuffle (at_or_above_min_of (st_loads s) mn capped) g1)
      as [a g2]. simpl in Ha.
    assert (u ++ a ≡ₚ capped) as Hua
      by (rewrite Hu, Ha; apply partition_perm).
    exists (take (Z.to_nat k) (u ++ a)), g2, (drop (Z.to_nat k) (u ++ a)).
    split; [done|]. split; [by rewrite take_drop|].
    split; [by rewrite length_take, (Permutation_length Hua)|].
    intros mn' [= <-]. by exists u, a.
  - rewrite choose_sample_run by done. fold capped.
    unfold random_sample.
    assert (0 < len capped) as Hlen
      by (unfold len; destruct capped; [done | simpl; lia]).
    destruct (Z.ltb_spec (Z.min k (len capped)) 0) as [Hk|Hk]; simpl.
    { right. repeat split; [lia | done]. }
    left.
    destruct (Z.ltb_spec (Z.of_nat (length capped))
                (Z.min k (len capped))) as [Hbad|_];
      [unfold len in *; lia|].
    cbv beta iota. unfold with_rng.
    destruct (sample_perm capped (Z.to_nat (Z.min k (len capped)))
                (st_rng s)) as [Hl [rest Hrest]];
      [unfold len in *; lia|].
    destruct (sample capped _ (st_rng s)) as [picks g'] eqn:Es.
    simpl in Hl, Hrest.
    exists picks, g', rest. split; [done|]. split; [done|].
    split; [unfold len in *; lia|]. intros mn [=].
Qed.

(** The selector only reads the load table and never touches the
    output file. *)
Lemma choose_frame (pool : list Z) (k : Z) (min_load max_load : option Z)
    (s : store) :
  let s' := (choose_reviewers_with_minmax pool k min_load max_load s).2 in
  st_loads s' = st_loads s ∧ st_file s' = st_file s.
Proof.
  destruct (choose_spec pool k min_load max_load s)
    as [(picks & g' & rest & -> & _)|(_ & _ & _ & ->)]; by simpl.
Qed.

Lemma elem_of_capped_pool (loads : gmap Z Z) (max_load : option Z)
    (pool : list Z) (rid : Z) :
  rid ∈ capped_pool loads max_load pool ↔
  rid ∈ pool ∧ match max_load with
               | Some mx => load_of loads rid < mx
               | None => True
               end.
Proof.
  destruct max_load as [mx|]; simpl; [|tauto].
  rewrite list_elem_of_filter. tauto.
Qed.

Lemma NoDup_capped_pool (loads : gmap Z Z) (max_load : option Z)
    (pool : list Z) :
  NoDup pool → NoDup (capped_pool loads max_load pool).
Proof. destruct max_load; simpl; [apply NoDup_filter | done]. Qed.

(** C3.  On a pool of distinct reviewers and for [k ≥ 0], whatever
    the load table, the bounds and the state of the generator, the
    selector returns a list of at most [k] reviewers without
    repetition, each of them a member of the pool whose load is below
    the maximum (when one is configured). *)
Theorem choose_reviewers_bounded_distinct_capped
    (pool : list Z) (k : Z) (min_load max_load : option Z) (s : store) :
  NoDup pool → 0 <= k →
  ∃ picks,
    (choose_reviewers_with_minmax pool k min_load max_load s).1
    = Returned picks
    ∧ len picks <= k
    ∧ NoDup picks
    ∧ ∀ rid, rid ∈ picks →
        rid ∈ pool ∧ match max_load with
                     | Some mx => load_of (st_loads s) rid < mx
                     | None => True
                     end.
Proof.
  intros Hnd Hk.
  destruct (choose_spec pool k min_load max_load s)
    as [(picks & g' & rest & Hrun & Hperm & Hlen & _)|(? & _)]; [|lia].
  exists picks. rewrite Hrun. split; [done|].
  split; [unfold len; lia|].
  assert (NoDup (picks ++ rest)) as Hnd'
    by (rewrite Hperm; by apply NoDup_capped_pool).
  split; [by apply NoDup_app in Hnd' as [? _]|].
  intros rid Hin. apply elem_of_capped_pool. rewrite <- Hperm.
  apply elem_of_app. by left.
Qed.

(** C4.  When the soft minimum is active ([min_load] is a positive
    number) and [k] is at most the number of under-minimum reviewers
    of the capped pool, every reviewer the selector returns is an
    under-minimum reviewer of the capped pool.  (Whether the capped
    pool also holds reviewers at or above the minimum does not
    matter.) *)
Theorem choose_reviewers_prefers_under_min
    (pool : list Z) (k : Z) (mn : Z) (max_load : option Z) (s : store) :
  0 < mn →
  k <= len (under_min_of (st_loads s) mn
              (capped_pool (st_loads s) max_load pool)) →
  ∃ picks,
    (choose_reviewers_with_minmax pool k (Some mn) max_load s).1
    = Returned picks
    ∧ ∀ rid, rid ∈ picks →
        rid ∈ capped_pool (st_loads s) max_load pool
        ∧ load_of (st_loads s) rid < mn.
Proof.
  intros Hmn Hk.
  assert (soft_min (Some mn) = Some mn) as Hsm
    by (simpl; destruct (Z.leb_spec mn 0); [lia | done]).
  destruct (choose_spec pool k (Some mn) max_load s)
    as [(picks & g' & rest & Hrun & Hperm & Hlen & Hsoft)
       |(_ & Hnone & _)]; [|congruence].
  exists picks. rewrite Hrun. split; [done|].
  destruct (Hsoft mn Hsm) as (u & a & Hu & Ha & ->).
  intros rid Hin.
  assert (rid ∈ u) as Hin'.
  { rewrite take_app_le in Hin
      by (rewrite (Permutation_length Hu); unfold len in Hk; lia).
    apply elem_of_take in Hin as (i & Hi & _).
    by eapply list_elem_of_lookup_2. }
  rewrite Hu in Hin'. unfold under_min_of in Hin'.
  apply list_elem_of_filter in Hin'. tauto.
Qed.

(** C6 (as amended).  If [k] is at least the size of the pool left by
    the hard cap, the selector returns every reviewer of the capped
    pool, each as often as the capped pool has it: a permutation of the
    capped pool.  The order is the generator's in this sense only: an
    empty capped pool gives the empty list and leaves the generator
    alone; without an active soft minimum the result is
    [random.sample] of the whole capped pool; with an active soft
    minimum it is the shuffled under-minimum reviewers followed by the
    shuffled reviewers at or above the minimum, so that the order is
    random within each of the two groups and fixed between them. *)
Theorem choose_reviewers_whole_pool
    (pool : list Z) (k : Z) (min_load max_load : option Z) (s : store) :
  let capped := capped_pool (st_loads s) max_load pool in
  len capped <= k →
  (∃ picks,
      (choose_reviewers_with_minmax pool k min_load max_load s).1
      = Returned picks
      ∧ picks ≡ₚ capped)
  ∧ (capped = [] →
     choose_reviewers_with_minmax pool k min_load max_load s
     = (Returned [], s))
  ∧ (capped ≠ [] → soft_min min_load = None →
     choose_reviewers_with_minmax pool k min_load max_load s
     = with_rng (sample capped (length capped)) s)
  ∧ (∀ mn, capped ≠ [] → soft_min min_load = Some mn →
       choose_reviewers_with_minmax pool k min_load max_load s
       = let '(u, g1) := shuffle (under_min_of (st_loads s) mn capped)
                           (st_rng s) in
         let '(a, g2) := shuffle (at_or_above_min_of (st_loads s) mn capped)
                           g1 in
         (Returned (u ++ a), set_rng g2 s)).
Proof.
  intros capped Hk. split; [|split; [|split]].
  - destruct (choose_spec pool k min_load max_load s)
      as [(picks & g' & rest & Hrun & Hperm & Hlen & _)|(? & _)];
      [|unfold len in Hk; lia].
    exists picks. rewrite Hrun. split; [done|]. fold capped in Hperm, Hlen.
    assert (rest = []) as ->.
    { apply Permutation_length in Hperm. rewrite length_app in Hperm.
      unfold len in Hk. destruct rest; [done | simpl in Hperm; lia]. }
    by rewrite app_nil_r in Hperm.
  - by apply choose_empty_run.
  - intros Hne Hm. rewrite choose_sample_run by done. fold capped.
    rewrite Z.min_r by done. unfold random_sample.
    assert (0 < len capped) as Hpos
      by (unfold len; destruct capped; [done | simpl; lia]).
    destruct (Z.ltb_spec (len capped) 0); [lia|].
    destruct (Z.ltb_spec (Z.of_nat (length capped)) (len capped));
      [unfold len in *; lia|].
    cbn [orb]. unfold len. by rewrite Nat2Z.id.
  - intros mn Hne Hm. rewrite (choose_soft_min_run _ _ _ _ mn) by done.
    cbv zeta. fold capped.
    pose proof (shuffle_perm (under_min_of (st_loads s) mn capped)
                  (st_rng s)) as Hu.
    destruct (shuffle (under_min_of (st_loads s) mn capped) (st_rng s))
      as [u g1]. simpl in Hu.
    pose proof (shuffle_perm (at_or_above_min_of (st_loads s) mn capped)
                  g1) as Ha.
    destruct (shuffle (at_or_above_min_of (st_loads s) mn capped) g1)
      as [a g2]. simpl in Ha.
    rewrite take_ge; [done|].
    assert (u ++ a ≡ₚ capped) as Hua
      by (rewrite Hu, Ha; apply partition_perm).
    rewrite (Permutation_length Hua). unfold len in Hk. lia.
Qed.

End selector_facts.

(** C6 as stated fails: the result is not the capped pool in a random
    order.  With the soft minimum 3, the capped pool [[1; 2]] and the
    loads 3 and 0, every generator makes the selector return
    [[2; 1]]: the under-minimum reviewer 2 always comes first, and the
    order [[1; 2]] of the capped pool never comes out. *)
Lemma choose_reviewers_order_counterexample :
  (∀ (R : PyRandom) (g : rng) (file : option (list out_row)),
      (choose_reviewers_with_minmax [1; 2] 2 (Some 3) None
         {| st_rng := g; st_loads := <[1 := 3]> (<[2 := 0]> ∅);
            st_file := file |}).1
      = Returned [2; 1])
  ∧ ¬ (∀ (pool : list Z) (k : Z) (min_load max_load : option Z)
         (loads : gmap Z Z) (p : list Z),
         len (capped_pool loads max_load pool) <= k →
         p ≡ₚ capped_pool loads max_load pool →
         ∃ (R : PyRandom) (g : rng),
           (choose_reviewers_with_minmax pool k min_load max_load
              {| st_rng := g; st_loads := loads; st_file := None |}).1
           = Returned p).
Proof.
  assert (∀ (R : PyRandom) (g : rng) (file : option (list out_row)),
            (choose_reviewers_with_minmax [1; 2] 2 (Some 3) None
               {| st_rng := g; st_loads := <[1 := 3]> (<[2 := 0]> ∅);
                  st_file := file |}).1
            = Returned [2; 1]) as Hforced.
  { intros R g file.
    rewrite (choose_soft_min_run [1; 2] 2 (Some 3) None 3) by done.
    cbv zeta. cbn [st_loads st_rng capped_pool].
    assert (under_min_of (<[1 := 3]> (<[2 := 0]> ∅)) 3 [1; 2] = [2])
      as -> by (vm_compute; reflexivity).
    assert (at_or_above_min_of (<[1 := 3]> (<[2 := 0]> ∅)) 3 [1; 2] = [1])
      as -> by (vm_compute; reflexivity).
    pose proof (shuffle_perm [2] g) as Hu.
    destruct (shuffle [2] g) as [u g1]. simpl in Hu.
    apply Permutation_singleton_r in Hu as ->.
    pose proof (shuffle_perm [1] g1) as Ha.
    destruct (shuffle [1] g1) as [a g2]. simpl in Ha.
    apply Permutation_singleton_r in Ha as ->.
    reflexivity. }
  split; [exact Hforced|].
  intros Hall.
  destruct (Hall [1; 2] 2 (Some 3) None (<[1 := 3]> (<[2 := 0]> ∅)) [1; 2])
    as (R & g & Hrun); [vm_compute; discriminate | done |].
  rewrite Hforced in Hrun. discriminate.
Qed.

(** ** The driver *)

Section driver_facts.
Context `{!PyFloatParser} `{!PyRandom}.

(** The resolver returns when the cells it reads are within the digit
    limit, and raises the error of [int] otherwise. *)
Lemma build_exclusion_loop_outcome (row : gmap string pyval)
    (cols : list string) :
  ∀ excluded,
    (row_within_limit cols row = true
     ∧ ∃ ex, build_exclusion_loop row cols excluded = Returned ex)
    ∨ (row_within_limit cols row = false
       ∧ build_exclusion_loop row cols excluded = Raised IntDigitsLimit).
Proof.
  unfold row_within_limit.
  induction cols as [|col cols IH]; intros excluded;
    cbn [build_exclusion_loop forallb]; [left; eauto|].
  destruct (normalize_id_outcome (row_get row col))
    as [[-> [r ->]]|[-> ->]]; cbn [obind andb]; [|by right].
  destruct r; apply IH.
Qed.

Lemma build_exclusion_set_outcome (row : gmap string pyval)
    (cols : list string) :
  (row_within_limit cols row = true
   ∧ ∃ ex, build_exclusion_set row cols = Returned ex)
  ∨ (row_within_limit cols row = false
     ∧ build_exclusion_set row cols = Raised IntDigitsLimit).
Proof. apply build_exclusion_loop_outcome. Qed.

Lemma commit_loop_run (picks : list Z) :
  ∀ s : store,
    forM_ picks (λ rid, bind (loads_get rid) (λ l, loads_set rid (l + 1))) s
    = (Returned tt, set_loads (commit_loads picks (st_loads s)) s).
Proof.
  induction picks as [|rid picks IH]; intros s.
  - simpl. unfold ret, set_loads. by rewrite store_eta.
  - cbn [forM_]. unfold bind at 1. unfold bind at 1.
    unfold loads_get at 1, loads_set at 1. rewrite IH. reflexivity.
Qed.

Lemma load_of_insert (loads : gmap Z Z) (rid rid' v : Z) :
  load_of (<[rid := v]> loads) rid'
  = if decide (rid = rid') then v else load_of loads rid'.
Proof.
  unfold load_of. rewrite lookup_insert. by case_decide.
Qed.

Lemma load_of_commit_notin (picks : list Z) :
  ∀ (loads : gmap Z Z) (rid : Z),
    rid ∉ picks → load_of (commit_loads picks loads) rid = load_of loads rid.
Proof.
  induction picks as [|x picks IH]; intros loads rid Hin; [done|].
  apply not_elem_of_cons in Hin as [Hne Hin]. simpl.
  fold (commit_loads picks (<[x := load_of loads x + 1]> loads)).
  rewrite IH by done. rewrite load_of_insert.
  case_decide; [congruence | done].
Qed.

(** The commit loop adds one to the load of each of the (distinct)
    picks and leaves every other load as it is. *)
Lemma load_of_commit (picks : list Z) :
  NoDup picks →
  ∀ (loads : gmap Z Z) (rid : Z),
    load_of (commit_loads picks loads) rid
    = load_of loads rid + (if decide (rid ∈ picks) then 1 else 0).
Proof.
  induction 1 as [|x picks Hx Hnd IH]; intros loads rid.
  - unfold commit_loads. cbn [fold_left].
    case_decide as Hin; [by apply not_elem_of_nil in Hin | lia].
  - unfold commit_loads. cbn [fold_left].
    fold (commit_loads picks (<[x := load_of loads x + 1]> loads)).
    destruct (decide (rid = x)) as [->|Hne].
    + rewrite load_of_commit_notin by done. rewrite load_of_insert.
      case_decide; [|done].
      case_decide as Hin; [done|]. contradict Hin. apply elem_of_cons.
      by left.
    + rewrite IH, load_of_insert.
      case_decide; [congruence|].
      destruct (decide (rid ∈ picks)) as [Hp|Hp];
        destruct (decide (rid ∈ x :: picks)) as [Hq|Hq];
        try done.
      * contradict Hq. apply elem_of_cons. by right.
      * apply elem_of_cons in Hq as [?|?]; done.
Qed.

Lemma record_selection_conflict (cfg : config) (app_id : pyval)
    (excluded : gset Z) (eligible picks : list Z)
    (acc : list out_row * list warning) (s : store) :
  list_to_set picks ∩ excluded ≠ (∅ : gset Z) →
  record_selection cfg app_id excluded eligible picks acc s
  = (Raised (ConflictDetected (list_to_set picks ∩ excluded)), s).
Proof.
  intros Hc. unfold record_selection. destruct acc as [outs ws].
  by rewrite decide_True.
Qed.

Lemma record_selection_run (cfg : config) (app_id : pyval)
    (excluded : gset Z) (eligible picks : list Z)
    (outs : list out_row) (ws : list warning) (s : store) :
  list_to_set picks ∩ excluded = (∅ : gset Z) →
  record_selection cfg app_id excluded eligible picks (outs, ws) s
  = (Returned
       (outs ++ [out_record cfg app_id excluded eligible picks],
        if len picks <? ASSIGNMENTS_PER_APPLICATION cfg
        then ws ++ [underfill_warning cfg app_id picks] else ws),
     set_loads (commit_loads picks (st_loads s)) s).
Proof.
  intros Hc. unfold record_selection.
  rewrite decide_False by (by intros ?).
  unfold bind at 1. rewrite commit_loop_run. reflexivity.
Qed.

(** Picks taken from a pool that was filtered by the exclusion set
    cannot meet it. *)
Lemma picks_avoid_exclusions (excluded : gset Z) (gr picks : list Z) :
  (∀ rid, rid ∈ picks → rid ∈ filter (λ rid, rid ∉ excluded) gr) →
  list_to_set picks ∩ excluded = (∅ : gset Z).
Proof.
  intros Hsub. apply set_eq. intros rid.
  rewrite elem_of_intersection, elem_of_list_to_set.
  split; [|by intros ?%not_elem_of_empty].
  intros [Hin Hex]. apply Hsub, list_elem_of_filter in Hin as [Hn _].
  done.
Qed.

(** A turn of the loop of [main] whose resolver raises ends there,
    the store being as it was. *)
Lemma process_application_raise (cfg : config) (cols : list string)
    (gr : list Z) (acc : list out_row * list warning)
    (row : gmap string pyval) (s : store) (e : exn) :
  build_exclusion_set row cols = Raised e →
  process_application cfg cols gr acc row s = (Raised e, s).
Proof.
  intros Hex. unfold process_application. unfold bind at 1.
  unfold lift at 1. by rewrite Hex.
Qed.

(** One turn of the loop of [main]. *)
Lemma process_application_spec (cfg : config) (cols : list string)
    (gr : list Z) (outs : list out_row) (ws : list warning)
    (row : gmap string pyval) (s : store) :
  let k := ASSIGNMENTS_PER_APPLICATION cfg in
  let min_load := MIN_ASSIGNMENTS_PER_REVIEWER cfg in
  let max_load := MAX_ASSIGNMENTS_PER_REVIEWER cfg in
  let app_id := row_get row APPLICATION_ID in
  (build_exclusion_set row cols = Raised IntDigitsLimit
   ∧ process_application cfg cols gr (outs, ws) row s
     = (Raised IntDigitsLimit, s))
  ∨ ∃ ex,
    build_exclusion_set row cols = Returned ex
    ∧ let eligible := filter (λ rid, rid ∉ ex) gr in
      let capped := capped_pool (st_loads s) max_load eligible in
      (∃ picks g' rest,
          choose_reviewers_with_minmax eligible k min_load max_load s
          = (Returned picks, set_rng g' s)
          ∧ picks ++ rest ≡ₚ capped
          ∧ length picks = (Z.to_nat k `min` length capped)%nat
          ∧ process_application cfg cols gr (outs, ws) row s
            = (Returned
                 (outs ++ [out_record cfg app_id ex eligible picks],
                  if len picks <? k
                  then ws ++ [underfill_warning cfg app_id picks]
                  else ws),
               set_loads (commit_loads picks (st_loads s))
                 (set_rng g' s)))
      ∨ (k < 0 ∧ soft_min min_load = None
         ∧ choose_reviewers_with_minmax eligible k min_load max_load s
           = (Raised SampleOutOfRange, s)
         ∧ process_application cfg cols gr (outs, ws) row s
           = (Raised SampleOutOfRange, s)).
Proof.
  intros k min_load max_load app_id.
  destruct (build_exclusion_set_outcome row cols)
    as [[_ [ex Hex]]|[_ Hex]];
    [right | left; split; [done | by apply process_application_raise]].
  exists ex. split; [done|]. intros eligible capped.
  assert (process_application cfg cols gr (outs, ws) row s
          = match choose_reviewers_with_minmax eligible k min_load
                    max_load s with
            | (Returned picks, s1) =>
                record_selection cfg app_id ex eligible picks (outs, ws) s1
            | (Raised e, s1) => (Raised e, s1)
            end) as ->.
  { unfold process_application. unfold bind at 1. unfold lift at 1.
    rewrite Hex. reflexivity. }
  destruct (choose_spec eligible k min_load max_load s)
    as [(picks & g' & rest & Hrun & Hperm & Hlen & _)
       |(Hk & Hm & _ & Hrun)]; rewrite Hrun.
  - left. exists picks, g', rest. do 3 (split; [done|]).
    rewrite record_selection_run; [reflexivity|].
    apply (picks_avoid_exclusions _ gr).
    intros rid Hin.
    assert (rid ∈ picks ++ rest) as Hc by (apply elem_of_app; by left).
    rewrite Hperm in Hc. by apply elem_of_capped_pool in Hc as [? _].
  - right. done.
Qed.

End driver_facts.

(** ** The loop and the whole run *)

Section run_facts.
Context `{!PyFloatParser} `{!PyRandom}.

Lemma assigned_cells_padded (k : Z) (picks : list Z) :
  len picks <= Z.max 0 k →
  assigned_cells k picks
  = (PyInt <$> picks)
    ++ replicate (Z.to_nat k - length picks)%nat (PyStr "").
Proof.
  unfold len, assigned_cells. intros Hk.
  replace (Z.to_nat k)
    with (length picks + (Z.to_nat k - length picks))%nat by lia.
  generalize (Z.to_nat k - length picks)%nat as n. intros n.
  replace (length picks + n - length picks)%nat with n by lia.
  rewrite seq_app, map_app. f_equal.
  - clear Hk. induction picks as [|x picks IH] using rev_ind; [done|].
    rewrite length_app, fmap_app. simpl.
    rewrite Nat.add_1_r, seq_S, map_app. simpl. f_equal.
    + rewrite <- IH. apply map_ext_in. intros i Hi.
      apply in_seq in Hi. by rewrite lookup_app_l by lia.
    + by rewrite list_lookup_middle.
  - assert (∀ m, (length picks ≤ m)%nat →
              map (λ i, match picks !! i with
                        | Some rid => PyInt rid
                        | None => PyStr ""
                        end) (seq m n)
              = replicate n (PyStr "")) as Hpad.
    { clear Hk. induction n as [|n IH]; intros m Hm; [done|]. simpl.
      rewrite lookup_ge_None_2 by lia. f_equal. apply IH. lia. }
    apply Hpad. simpl. lia.
Qed.

Lemma application_record_mono (cfg : config) (cols : list string)
    (gr : list Z) (ws ws' : list warning) (row : gmap string pyval)
    (out : out_row) :
  ws `prefix_of` ws' →
  application_record cfg cols gr ws row out →
  application_record cfg cols gr ws' row out.
Proof.
  intros [tl ->] (ex & picks & Hex & Hin & Hlen & Hout & Hw).
  exists ex, picks. do 4 (split; [done|]).
  intros Hlt. apply elem_of_app. left. by apply Hw.
Qed.

(** The loop of [main]: it leaves the output file alone; when it
    returns it has appended one record per application and has kept
    the earlier warnings; it can only raise through [random.sample],
    for a negative [k], or through [int] in the resolver of one of the
    applications. *)
Lemma allocation_loop_spec (cfg : config) (cols : list string)
    (gr : list Z) (rows : list (gmap string pyval)) :
  ∀ (outs : list out_row) (ws : list warning) (s : store),
    match allocation_loop cfg cols gr rows (outs, ws) s with
    | (Returned (outs', ws'), s') =>
        st_file s' = st_file s
        ∧ ws `prefix_of` ws'
        ∧ ∃ new, outs' = outs ++ new
                 ∧ Forall2 (application_record cfg cols gr ws') rows new
    | (Raised e, s') =>
        st_file s' = st_file s
        ∧ ((e = SampleOutOfRange ∧ ASSIGNMENTS_PER_APPLICATION cfg < 0)
           ∨ (e = IntDigitsLimit
              ∧ ∃ row, row ∈ rows
                       ∧ build_exclusion_set row cols
                         = Raised IntDigitsLimit))
    end.
Proof.
  induction rows as [|row rows IH]; intros outs ws s.
  { simpl. split; [done|]. split; [done|]. exists [].
    by rewrite app_nil_r. }
  cbn [allocation_loop]. unfold bind at 1.
  destruct (process_application_spec cfg cols gr outs ws row s)
    as [[Hex ->]
       |(ex & Hex & [(picks & g' & rest & _ & Hperm & Hlen & ->)
                    |(Hk & _ & _ & ->)])].
  { split; [done|]. right. split; [done|]. exists row.
    split; [apply list_elem_of_here | done]. }
  2: { split; [done|]. by left. }
  match goal with
  | |- context [allocation_loop _ _ _ _ (?o, ?w) ?s1] =>
      specialize (IH o w s1);
      destruct (allocation_loop cfg cols gr rows (o, w) s1)
        as [[[outs' ws']|e] s']
  end.
  2: { destruct IH as [Hfile [Hs|(-> & row' & Hin & Hraise)]].
       - split; [done|]. by left.
       - split; [done|]. right. split; [done|]. exists row'.
         split; [by apply list_elem_of_further | done]. }
  destruct IH as (Hfile & Hpre & new & -> & Hall).
  split; [done|]. split.
  { etrans; [|exact Hpre]. case_match; [by apply prefix_app_r | done]. }
  eexists (_ :: new). split; [by rewrite <- app_assoc|].
  constructor; [|done].
  eapply application_record_mono; [exact Hpre|].
  exists ex, picks. split; [done|]. split.
  { intros rid Hin.
    assert (rid ∈ picks ++ rest) as Hc by (apply elem_of_app; by left).
    rewrite Hperm in Hc. apply elem_of_capped_pool in Hc as [Hc _].
    apply list_elem_of_filter in Hc. tauto. }
  split; [unfold len; lia|]. split; [done|].
  intros Hlt. apply Z.ltb_lt in Hlt. rewrite Hlt.
  apply elem_of_app. right. apply list_elem_of_singleton. done.
Qed.

Lemma process_application_bounded (cfg : config) (cols : list string)
    (gr : list Z) (acc : list out_row * list warning)
    (row : gmap string pyval) (mx : Z) (s : store) :
  MAX_ASSIGNMENTS_PER_REVIEWER cfg = Some mx →
  NoDup gr →
  loads_bounded mx s →
  loads_bounded mx (process_application cfg cols gr acc row s).2.
Proof.
  intros Hmx Hnd Hb. destruct acc as [outs ws].
  destruct (process_application_spec cfg cols gr outs ws row s)
    as [[_ ->]
       |(ex & Hex & [(picks & g' & rest & _ & Hperm & Hlen & ->)
                    |(Hk & _ & _ & ->)])]; [done| |done].
  intros rid. simpl.
  assert (NoDup (picks ++ rest)) as Hnd'.
  { rewrite Hperm. by apply NoDup_capped_pool, NoDup_filter. }
  apply NoDup_app in Hnd' as [Hndp _].
  rewrite load_of_commit by done.
  case_decide as Hin; [|specialize (Hb rid); lia].
  assert (rid ∈ picks ++ rest) as Hc by (apply elem_of_app; by left).
  rewrite Hperm in Hc. apply elem_of_capped_pool in Hc as [_ Hc].
  rewrite Hmx in Hc. lia.
Qed.

Lemma allocation_loop_bounded (cfg : config) (cols : list string)
    (gr : list Z) (rows : list (gmap string pyval)) (mx : Z) :
  MAX_ASSIGNMENTS_PER_REVIEWER cfg = Some mx →
  NoDup gr →
  ∀ (acc : list out_row * list warning) (s : store),
    loads_bounded mx s →
    loads_bounded mx (allocation_loop cfg cols gr rows acc s).2.
Proof.
  intros Hmx Hnd. induction rows as [|row rows IH]; intros acc s Hb;
    [done|].
  cbn [allocation_loop]. unfold bind at 1.
  pose proof (process_application_bounded cfg cols gr acc row mx s
                Hmx Hnd Hb) as Hb'.
  destruct (process_application cfg cols gr acc row s) as [[acc'|e] s'];
    [by apply IH | done].
Qed.

(** *** Reviewer pool builder *)

(** The first loop of the pool builder returns when the first cells
    of the file are within the digit limit, and raises the error of
    [int] otherwise. *)
Lemma collect_ids_outcome (rows : list (list string)) :
  ∀ ids,
    (file_within_limit rows = true
     ∧ ∃ ids', collect_ids rows ids = Returned ids')
    ∨ (file_within_limit rows = false
       ∧ collect_ids rows ids = Raised IntDigitsLimit).
Proof.
  unfold file_within_limit.
  induction rows as [|r rows IH]; intros ids;
    cbn [collect_ids forallb]; [left; eauto|].
  destruct r as [|raw r]; [apply IH|].
  destruct (normalize_id_outcome (PyStr raw))
    as [[-> [rid ->]]|[-> ->]]; cbn [obind andb]; [|by right].
  destruct rid; apply IH.
Qed.

Lemma dedup_ids_NoDup (ids : list Z) :
  ∀ (seen : gset Z) (uniq : list Z),
    NoDup uniq → (∀ x, x ∈ uniq → x ∈ seen) →
    NoDup (dedup_ids ids seen uniq).
Proof.
  induction ids as [|rid ids IH]; intros seen uniq Hnd Hseen; [done|].
  simpl. case_decide as Hin; [|by apply IH].
  apply IH.
  - apply NoDup_app. split; [done|]. split; [|apply NoDup_singleton].
    intros x Hx ->%list_elem_of_singleton. by apply Hin, Hseen.
  - intros x [Hx| ->%list_elem_of_singleton]%elem_of_app.
    + apply elem_of_union. right. by apply Hseen.
    + apply elem_of_union. left. by apply elem_of_singleton.
Qed.

Lemma load_reviewer_ids_outcome (reviewers : list (list string)) :
  (file_within_limit reviewers = true
   ∧ ∃ ids, load_reviewer_ids reviewers = Returned ids ∧ NoDup ids)
  ∨ (file_within_limit reviewers = false
     ∧ load_reviewer_ids reviewers = Raised IntDigitsLimit).
Proof.
  unfold load_reviewer_ids.
  destruct (collect_ids_outcome reviewers [])
    as [[Hlim [ids ->]]|[Hlim ->]]; [left | by right].
  split; [done|]. simpl. eexists. split; [done|].
  apply dedup_ids_NoDup; [constructor|]. by intros x ?%not_elem_of_nil.
Qed.

Lemma load_of_zero_loads (gr : list Z) (rid : Z) :
  load_of (zero_loads gr) rid = 0.
Proof.
  unfold zero_loads.
  assert (∀ d : gmap Z Z, load_of d rid = 0 →
            load_of (fold_left (λ d r, <[r := 0]> d) gr d) rid = 0) as Hz.
  { induction gr as [|x gr IH]; intros d Hd; [done|]. simpl. apply IH.
    rewrite load_of_insert. by case_decide. }
  apply Hz. unfold load_of. by rewrite lookup_empty.
Qed.

(** *** [main] *)

Lemma main_unfold (cfg : config) (df : dataframe)
    (reviewers : list (list string)) (s0 : store) :
  main cfg df reviewers s0
  = let s1 := seeded cfg s0 in
    if decide (APPLICATION_ID ∉ df_columns df)
    then (Raised MissingApplicationId, s1)
    else
      match load_reviewer_ids reviewers with
      | Raised e => (Raised e, s1)
      | Returned [] => (Raised NoReviewerIds, s1)
      | Returned ids =>
          let '(gr, g) := shuffle ids (st_rng s1) in
          match allocation_loop cfg (get_exclusion_cols cfg df) gr
                  (df_rows df) ([], [])
                  (set_loads (zero_loads gr) (set_rng g s1)) with
          | (Returned (outs, ws), s2) =>
              (Returned ws,
               {| st_rng := st_rng s2; st_loads := st_loads s2;
                  st_file := Some outs |})
          | (Raised e, s2) => (Raised e, s2)
          end
      end.
Proof.
  unfold main, seeded. unfold bind at 1.
  assert (match SEED cfg with
          | Some n => random_seed n
          | None => ret tt
          end s0
          = (Returned tt, match SEED cfg with
                          | Some n => set_rng (seed n) s0
                          | None => s0
                          end)) as ->
    by (by destruct (SEED cfg)).
  cbv zeta. set (s1 := match SEED cfg with
                       | Some n => set_rng (seed n) s0
                       | None => s0
                       end).
  case_decide; [done|].
  unfold bind at 1. unfold lift at 1.
  destruct (load_reviewer_ids reviewers) as [[|x ids]|e]; [done| |done].
  unfold bind at 1. unfold random_shuffle at 1, with_rng at 1.
  destruct (shuffle (x :: ids) (st_rng s1)) as [gr g].
  unfold bind at 1. unfold loads_bind at 1.
  unfold bind at 1. cbn [st_rng st_loads st_file].
  unfold set_loads, set_rng. cbn [st_rng st_loads st_file].
  destruct (allocation_loop _ _ _ _ _ _) as [[[outs ws]|e] s2];
    reflexivity.
Qed.

Lemma assigned_reviewers_out_record (cfg : config) (app_id : pyval)
    (ex : gset Z) (eligible picks : list Z) :
  len picks <= Z.max 0 (ASSIGNMENTS_PER_APPLICATION cfg) →
  assigned_reviewers (out_record cfg app_id ex eligible picks) = picks.
Proof.
  intros Hk. unfold assigned_reviewers, out_record. cbn [o_assigned].
  rewrite assigned_cells_padded by done.
  generalize (Z.to_nat (ASSIGNMENTS_PER_APPLICATION cfg) - length picks)%nat.
  intros n. rewrite omap_app.
  assert (omap (λ v, match v with PyInt rid => Some rid | _ => None end)
            (replicate n (PyStr "")) = []) as ->
    by (induction n; [done | simpl; done]).
  rewrite app_nil_r. clear Hk.
  induction picks as [|x picks IH]; [done|]. simpl. f_equal. exact IH.
Qed.

Lemma allocation_loop_app (cfg : config) (cols : list string)
    (gr : list Z) (rows1 rows2 : list (gmap string pyval)) :
  ∀ (acc : list out_row * list warning) (s : store),
    allocation_loop cfg cols gr (rows1 ++ rows2) acc s
    = bind (allocation_loop cfg cols gr rows1 acc)
        (λ acc', allocation_loop cfg cols gr rows2 acc') s.
Proof.
  induction rows1 as [|row rows1 IH]; intros acc s; [done|].
  cbn [allocation_loop app]. unfold bind at 1 2 3.
  destruct (process_application cfg cols gr acc row s) as [[acc'|e] s'];
    [|done].
  rewrite IH. reflexivity.
Qed.

(** The loop over a table passes through the state that the loop over
    its first [n] records ends in. *)
Lemma allocation_loop_take_drop (cfg : config) (cols : list string)
    (gr : list Z) (rows : list (gmap string pyval)) (n : nat)
    (acc : list out_row * list warning) (s : store) :
  allocation_loop cfg cols gr rows acc s
  = bind (allocation_loop cfg cols gr (take n rows) acc)
      (λ acc', allocation_loop cfg cols gr (drop n rows) acc') s.
Proof. by rewrite <- allocation_loop_app, take_drop. Qed.

(** What [main] does from a fresh process state. *)
Lemma main_spec (cfg : config) (df : dataframe)
    (reviewers : list (list string)) (g : rng)
    (file : option (list out_row)) :
  let s0 := initial_store g file in
  let cols := get_exclusion_cols cfg df in
  let k := ASSIGNMENTS_PER_APPLICATION cfg in
  ((APPLICATION_ID ∉ df_columns df)
   ∧ main cfg df reviewers s0 = (Raised MissingApplicationId, seeded cfg s0))
  ∨ (APPLICATION_ID ∈ df_columns df
     ∧ load_reviewer_ids reviewers = Raised IntDigitsLimit
     ∧ main cfg df reviewers s0 = (Raised IntDigitsLimit, seeded cfg s0))
  ∨ (APPLICATION_ID ∈ df_columns df
     ∧ load_reviewer_ids reviewers = Returned []
     ∧ main cfg df reviewers s0 = (Raised NoReviewerIds, seeded cfg s0))
  ∨ (APPLICATION_ID ∈ df_columns df
     ∧ ∃ ids gr, load_reviewer_ids reviewers = Returned ids
         ∧ ids ≠ [] ∧ NoDup gr ∧ gr ≡ₚ ids
         ∧ ((∃ ws outs s',
                main cfg df reviewers s0 = (Returned ws, s')
                ∧ st_file s' = Some outs
                ∧ Forall2 (application_record cfg cols gr ws)
                    (df_rows df) outs)
            ∨ (k < 0 ∧ ∃ s', main cfg df reviewers s0
                             = (Raised SampleOutOfRange, s')
                             ∧ st_file s' = file)
            ∨ ((∃ row, row ∈ df_rows df
                       ∧ build_exclusion_set row cols
                         = Raised IntDigitsLimit)
               ∧ ∃ s', main cfg df reviewers s0
                       = (Raised IntDigitsLimit, s')
                       ∧ st_file s' = file))).
Proof.
  intros s0 cols k. rewrite main_unfold. cbv zeta.
  case_decide as Hcol; [by left|]. right.
  destruct (load_reviewer_ids_outcome reviewers)
    as [[_ (ids & Hids & Hnd)]|[_ Hids]]; rewrite Hids; [|by left].
  right. destruct ids as [|x ids]; [by left|]. right.
  split; [done|].
  pose proof (shuffle_perm (x :: ids) (st_rng (seeded cfg s0))) as Hperm.
  destruct (shuffle (x :: ids) (st_rng (seeded cfg s0))) as [gr g1].
  simpl in Hperm.
  exists (x :: ids), gr. split; [done|]. split; [done|].
  split; [by rewrite Hperm|]. split; [done|].
  pose proof (allocation_loop_spec cfg cols gr (df_rows df) [] []
                (set_loads (zero_loads gr) (set_rng g1 (seeded cfg s0))))
    as Hloop.
  fold cols.
  destruct (allocation_loop cfg cols gr (df_rows df) ([], []) _)
    as [[[outs ws]|e] s2].
  - left. destruct Hloop as (_ & _ & new & -> & Hall).
    by exists ws, new, {| st_rng := st_rng s2; st_loads := st_loads s2;
                         st_file := Some new |}.
  - assert (st_file s2 = file) as Hfile'.
    { destruct Hloop as [-> _]. simpl. unfold seeded.
      by destruct (SEED cfg). }
    right. destruct Hloop as (_ & [[-> Hk]|[-> Hrow]]).
    + left. split; [done|]. by exists s2.
    + right. split; [done|]. by exists s2.
Qed.

(** *** The claims about the driver *)

(** C1.  The reviewers assigned to an application never belong to
    its exclusion set, and the driver checks it: (1) whatever the
    state, the picks the selector returns for the eligible pool of an
    application avoid the exclusion set of that application; (2) a
    selection that met the exclusion set would make the driver raise
    the conflict error before committing anything; (3) a run of
    [main] never raises that error, and when it completes, the
    reviewers named in each record of the output file avoid the
    exclusion set of the application of that record. *)
Theorem assignments_avoid_exclusions (cfg : config) (df : dataframe)
    (reviewers : list (list string)) (g : rng)
    (file : option (list out_row)) :
  (∀ (cols : list string) (gr : list Z) (row : gmap string pyval)
      (s s1 : store) (ex : gset Z) (picks : list Z),
      build_exclusion_set row cols = Returned ex →
      choose_reviewers_with_minmax (filter (λ rid, rid ∉ ex) gr)
        (ASSIGNMENTS_PER_APPLICATION cfg)
        (MIN_ASSIGNMENTS_PER_REVIEWER cfg)
        (MAX_ASSIGNMENTS_PER_REVIEWER cfg) s = (Returned picks, s1) →
      list_to_set picks ∩ ex = (∅ : gset Z))
  ∧ (∀ (app_id : pyval) (ex : gset Z) (eligible picks : list Z)
       (acc : list out_row * list warning) (s : store),
       list_to_set picks ∩ ex ≠ (∅ : gset Z) →
       record_selection cfg app_id ex eligible picks acc s
       = (Raised (ConflictDetected (list_to_set picks ∩ ex)), s))
  ∧ match main cfg df reviewers (initial_store g file) with
    | (Returned _, s') =>
        ∃ outs,
          st_file s' = Some outs
          ∧ Forall2
              (λ row out,
                 ∃ ex, build_exclusion_set row (get_exclusion_cols cfg df)
                       = Returned ex
                       ∧ ∀ rid, rid ∈ assigned_reviewers out → rid ∉ ex)
              (df_rows df) outs
    | (Raised e, _) => ∀ c, e ≠ ConflictDetected c
    end.
Proof.
  split; [|split].
  - intros cols gr row s s1 ex picks Hex Hrun.
    apply (picks_avoid_exclusions _ gr). intros rid Hin.
    destruct (choose_spec (filter (λ rid, rid ∉ ex) gr)
                (ASSIGNMENTS_PER_APPLICATION cfg)
                (MIN_ASSIGNMENTS_PER_REVIEWER cfg)
                (MAX_ASSIGNMENTS_PER_REVIEWER cfg) s)
      as [(picks' & g' & rest & Hrun' & Hperm & _)|(_ & _ & _ & Hrun')];
      rewrite Hrun' in Hrun; [|done].
    injection Hrun as <- _.
    assert (rid ∈ picks' ++ rest) as Hc by (apply elem_of_app; by left).
    rewrite Hperm in Hc. by apply elem_of_capped_pool in Hc as [? _].
  - intros. by apply record_selection_conflict.
  - destruct (main_spec cfg df reviewers g file)
      as [[_ ->]|[(_ & _ & ->)|[(_ & _ & ->)
         |(_ & ids & gr & _ & _ & _ & _ & Hrun)]]];
      [done | done | done |].
    destruct Hrun as [(ws & outs & s' & -> & Hfile & Hall)
                     |[(_ & s' & -> & _)|(_ & s' & -> & _)]];
      [|done|done].
    exists outs. split; [done|].
    eapply Forall2_impl; [exact Hall|].
    intros row out (ex & picks & Hex & Hin & Hlen & -> & _).
    exists ex. split; [done|]. intros rid.
    rewrite assigned_reviewers_out_record by done.
    intros Hrid. by apply Hin.
Qed.

(** C2.  With a maximum load [mx ≥ 0] configured, every entry of the
    load table is at most [mx] at every point of the run: for every
    [n], in the state reached by the run once the first [n]
    applications have been processed (the state in which [main] ends
    on the table cut after [n] records, through which the run on the
    whole table passes, see [allocation_loop_take_drop]). *)
Theorem loads_never_exceed_max (cfg : config) (df : dataframe)
    (reviewers : list (list string)) (g : rng)
    (file : option (list out_row)) (mx : Z) (n : nat) :
  MAX_ASSIGNMENTS_PER_REVIEWER cfg = Some mx →
  0 <= mx →
  loads_bounded mx
    (main cfg (first_applications n df) reviewers
       (initial_store g file)).2.
Proof.
  intros Hmx Hpos.
  assert (loads_bounded mx (seeded cfg (initial_store g file))) as Hinit.
  { intros rid. unfold seeded. destruct (SEED cfg); simpl;
      unfold load_of; by rewrite lookup_empty. }
  rewrite main_unfold. cbv zeta.
  case_decide; [done|].
  destruct (load_reviewer_ids_outcome reviewers)
    as [[_ (ids & -> & Hnd)]|[_ ->]]; [|done].
  destruct ids as [|x ids]; [done|].
  pose proof (shuffle_perm (x :: ids)
                (st_rng (seeded cfg (initial_store g file)))) as Hperm.
  destruct (shuffle (x :: ids) _) as [gr g1]. simpl in Hperm.
  match goal with
  | |- context [allocation_loop ?c ?cols ?gr ?rows ?acc ?s1] =>
      pose proof (allocation_loop_bounded c cols gr rows mx Hmx
                    ltac:(by rewrite Hperm) acc s1) as Hb;
      destruct (allocation_loop c cols gr rows acc s1)
        as [[[outs ws]|e] s2]
  end; simpl in *; apply Hb; intros rid; simpl;
    rewrite load_of_zero_loads; lia.
Qed.

(** X25.  The outcomes of a run, for [k ≥ 0].  The run aborts, leaving the
    output file as it was, when the applicants table has no
    [Application ID] column, when [int] refuses a cell of the
    reviewers file or an exclusion cell for its number of digits, and
    when the reviewers file yields no identifier.  It raises nothing
    else, the conflict error in particular; otherwise it returns with
    one record per application written to the output file.  The
    conflict check sits in the commit step: a selection that met the
    exclusion set makes the driver raise the conflict error, the store
    being left as it was; and the loop never writes the output file,
    however it ends. *)
Theorem main_outcomes (cfg : config) (df : dataframe)
    (reviewers : list (list string)) (g : rng)
    (file : option (list out_row)) :
  0 <= ASSIGNMENTS_PER_APPLICATION cfg →
  match main cfg df reviewers (initial_store g file) with
  | (Raised MissingApplicationId, s') =>
      (APPLICATION_ID ∉ df_columns df) ∧ st_file s' = file
  | (Raised IntDigitsLimit, s') =>
      APPLICATION_ID ∈ df_columns df
      ∧ (load_reviewer_ids reviewers = Raised IntDigitsLimit
         ∨ ∃ row, row ∈ df_rows df
                  ∧ build_exclusion_set row (get_exclusion_cols cfg df)
                    = Raised IntDigitsLimit)
      ∧ st_file s' = file
  | (Raised NoReviewerIds, s') =>
      APPLICATION_ID ∈ df_columns df
      ∧ load_reviewer_ids reviewers = Returned []
      ∧ st_file s' = file
  | (Raised _, _) => False
  | (Returned _, s') =>
      APPLICATION_ID ∈ df_columns df
      ∧ (∃ ids, load_reviewer_ids reviewers = Returned ids ∧ ids ≠ [])
      ∧ ∃ outs, st_file s' = Some outs
                ∧ length outs = length (df_rows df)
  end
  ∧ (∀ (app_id : pyval) (ex : gset Z) (eligible picks : list Z)
       (acc : list out_row * list warning) (s : store),
       list_to_set picks ∩ ex ≠ (∅ : gset Z) →
       record_selection cfg app_id ex eligible picks acc s
       = (Raised (ConflictDetected (list_to_set picks ∩ ex)), s))
  ∧ (∀ (cols : list string) (gr : list Z)
       (rows : list (gmap string pyval))
       (acc : list out_row * list warning) (s : store),
       st_file (allocation_loop cfg cols gr rows acc s).2 = st_file s).
Proof.
  intros Hk. split; [|split; [intros; by apply record_selection_conflict|]].
  2: { intros cols gr rows [outs ws] s.
       pose proof (allocation_loop_spec cfg cols gr rows outs ws s) as Hl.
       destruct (allocation_loop cfg cols gr rows (outs, ws) s)
         as [[[outs' ws']|e] s']; simpl; tauto. }
  assert (∀ s, st_file (seeded cfg s) = st_file s) as Hseed
    by (intros s; unfold seeded; by destruct (SEED cfg)).
  destruct (main_spec cfg df reviewers g file)
    as [[Hcol ->]|[(Hcol & Hids & ->)|[(Hcol & Hids & ->)
       |(Hcol & ids & gr & Hids & Hne & _ & _ & Hrun)]]].
  - by rewrite Hseed.
  - rewrite Hseed. split; [done|]. split; [by left | done].
  - by rewrite Hseed.
  - destruct Hrun as [(ws & outs & s' & -> & Hfile & Hall)
                     |[(? & _)|(Hrow & s' & -> & Hfile)]]; [|lia|].
    + split; [done|]. split; [by exists ids|]. exists outs.
      split; [done|]. symmetry. by eapply Forall2_length.
    + split; [done|]. split; [by right | done].
Qed.

(** C8.  For [k ≥ 0]: (1) in a turn of the loop whose resolver returns
    the exclusion set, the selector returns some picks and the turn
    returns too, having appended the record of the application; when
    the picks are fewer than [k], the turn has also appended the
    warning that names the application, the number of picks and [k],
    the cells of the record are the picks followed by empty strings up
    to [k] cells, and its under-fill flag is set; (2) a run of [main]
    on a table with the [Application ID] column, with a reviewer pool
    that is returned non-empty and with exclusion cells that [int]
    converts, completes, writes one record per application, and
    returns warnings among which is the warning of every under-filled
    application. *)
Theorem underfill_is_reported (cfg : config) :
  0 <= ASSIGNMENTS_PER_APPLICATION cfg →
  let k := ASSIGNMENTS_PER_APPLICATION cfg in
  (∀ (cols : list string) (gr : list Z) (outs : list out_row)
      (ws : list warning) (row : gmap string pyval) (s : store)
      (ex : gset Z),
      let app_id := row_get row APPLICATION_ID in
      build_exclusion_set row cols = Returned ex →
      ∃ picks s1 out ws' s',
        choose_reviewers_with_minmax (filter (λ rid, rid ∉ ex) gr) k
            (MIN_ASSIGNMENTS_PER_REVIEWER cfg)
            (MAX_ASSIGNMENTS_PER_REVIEWER cfg) s = (Returned picks, s1)
        ∧ process_application cfg cols gr (outs, ws) row s
          = (Returned (outs ++ [out], ws'), s')
        ∧ o_app_id out = app_id
        ∧ (len picks < k →
             ws' = ws ++ [{| w_app_id := app_id;
                             w_found := length picks;
                             w_needed := k |}]
             ∧ o_assigned out
               = (PyInt <$> picks)
                 ++ replicate (Z.to_nat k - length picks)%nat (PyStr "")
             ∧ o_used_fallback out = true))
  ∧ (∀ (df : dataframe) (reviewers : list (list string)) (g : rng)
       (file : option (list out_row)) (ids : list Z),
       APPLICATION_ID ∈ df_columns df →
       load_reviewer_ids reviewers = Returned ids →
       ids ≠ [] →
       table_within_limit cfg df = true →
       ∃ ws outs s' gr,
         main cfg df reviewers (initial_store g file) = (Returned ws, s')
         ∧ st_file s' = Some outs
         ∧ Forall2 (application_record cfg (get_exclusion_cols cfg df)
                      gr ws)
             (df_rows df) outs).
Proof.
  intros Hk k. split.
  - intros cols gr outs ws row s ex app_id Hex.
    destruct (process_application_spec cfg cols gr outs ws row s)
      as [[Hex' _]
         |(ex' & Hex' & [(picks & g' & rest & Hrun & Hperm & Hlen & Hstep)
                        |(? & _)])]; [congruence| |lia].
    rewrite Hex in Hex'. injection Hex' as <-.
    exists picks. do 4 eexists.
    split; [exact Hrun|]. split; [exact Hstep|].
    split; [done|]. intros Hlt. fold k.
    apply Z.ltb_lt in Hlt as Hlt'. rewrite Hlt'.
    split; [done|]. split; [|done]. cbn [out_record o_assigned].
    apply assigned_cells_padded. unfold len in *. lia.
  - intros df reviewers g file ids0 Hcol Hids Hne Hlim.
    destruct (main_spec cfg df reviewers g file)
      as [[Hcol' _]|[(_ & Hids' & _)|[(_ & Hids' & _)
         |(_ & ids & gr & _ & _ & _ & _ & Hrun)]]];
      [done | congruence | congruence |].
    destruct Hrun as [(ws & outs & s' & Hmain & Hfile & Hall)
                     |[(? & _)|((row & Hin & Hraise) & _)]]; [|lia|].
    + by exists ws, outs, s', gr.
    + exfalso. unfold table_within_limit in Hlim.
      rewrite forallb_forall in Hlim.
      apply list_elem_of_In in Hin. specialize (Hlim row Hin).
      destruct (build_exclusion_set_outcome row
                  (get_exclusion_cols cfg df))
        as [[_ [ex Hex]]|[Hf _]]; congruence.
Qed.

(** C9.  The load table has one writer.  A call of the selector,
    whatever its arguments and whether it returns or raises, leaves
    the load table as it was.  A turn of the loop over a pool of
    distinct reviewers changes it by the commit step only: if the
    resolver raised, the table is unchanged; if the resolver returned
    and the selector returned [picks], the table after the turn is the
    table before it with the entry of each pick increased by exactly
    one and every other entry unchanged, so no entry decreases; if the
    selector raised, the table is unchanged. *)
Theorem loads_written_only_by_commit (cfg : config) (cols : list string)
    (gr : list Z) (acc : list out_row * list warning)
    (row : gmap string pyval) (s : store) :
  NoDup gr →
  (∀ (pool : list Z) (k : Z) (min_load max_load : option Z) (s0 : store),
      st_loads (choose_reviewers_with_minmax pool k min_load max_load s0).2
      = st_loads s0)
  ∧ let s' := (process_application cfg cols gr acc row s).2 in
    match build_exclusion_set row cols with
    | Raised _ => st_loads s' = st_loads s
    | Returned ex =>
        match (choose_reviewers_with_minmax (filter (λ rid, rid ∉ ex) gr)
                 (ASSIGNMENTS_PER_APPLICATION cfg)
                 (MIN_ASSIGNMENTS_PER_REVIEWER cfg)
                 (MAX_ASSIGNMENTS_PER_REVIEWER cfg) s).1 with
        | Returned picks =>
            st_loads s' = commit_loads picks (st_loads s)
            ∧ ∀ rid,
                load_of (st_loads s') rid
                = load_of (st_loads s) rid
                  + (if decide (rid ∈ picks) then 1 else 0)
        | Raised _ => st_loads s' = st_loads s
        end
    end.
Proof.
  intros Hnd. split.
  { intros pool k min_load max_load s0.
    by destruct (choose_frame pool k min_load max_load s0). }
  destruct acc as [outs ws]. cbv zeta.
  destruct (process_application_spec cfg cols gr outs ws row s)
    as [[-> ->]
       |(ex & -> & [(picks & g' & rest & Hrun & Hperm & Hlen & Hstep)
                   |(_ & _ & Hrun & Hstep)])]; [done| |];
    rewrite Hrun, Hstep; [|done].
  cbn [fst snd]. split; [done|]. intros rid.
  cbn [set_loads st_loads].
  apply load_of_commit.
  assert (NoDup (picks ++ rest)) as Hnd'.
  { rewrite Hperm. by apply NoDup_capped_pool, NoDup_filter. }
  by apply NoDup_app in Hnd' as [? _].
Qed.

End run_facts.

(** ** Concrete runs *)

Section concrete_runs.
#[local] Existing Instance table_float_syntax.
#[local] Existing Instance lcg_random.

(** The forms of the identifier 7, and values that are not
    identifiers. *)
Example normalize_seven :
  map normalize_id
    [PyStr "7"; PyInt 7; PyFloat (S754_finite false 7 0); PyStr " 7 ";
     PyStr "7.00"; PyFloat (S754_finite false 15 (-1)); PyStr "abc";
     PyStr ""; PyStr "   "; PyNone; PyFloat S754_nan;
     PyFloat (S754_infinity false); PyStr "1,234"; PyStr "7 0"]
  = [Returned (Some 7); Returned (Some 7); Returned (Some 7);
     Returned (Some 7); Returned (Some 7); Returned None; Returned None;
     Returned None; Returned None; Returned None; Returned None;
     Returned None; Returned (Some 1234); Returned None].
Proof. vm_compute. reflexivity. Qed.

(** Strings that the digit pattern rejects and [float] accepts. *)
Example normalize_by_float :
  map normalize_id
    [PyStr "7.5"; PyStr "7."; PyStr " +7"; PyStr "1e3"; PyStr "-3";
     PyStr "-3.5"; PyStr "-0.0"; PyStr "inf"; PyStr "nan"]
  = [Returned None; Returned (Some 7); Returned (Some 7);
     Returned (Some 1000); Returned (Some (-3)); Returned None;
     Returned (Some 0); Returned None; Returned None].
Proof. vm_compute. reflexivity. Qed.

(** The digit limit of [int]: 4300 digits are converted, 4301 are
    refused, with or without commas and padding around them. *)
Example normalize_at_the_limit :
  match normalize_id
          (PyStr (string_of_list_ascii (replicate 4300 "7"%char))) with
  | Returned (Some z) => 0 < z
  | _ => False
  end
  ∧ normalize_id (PyStr Demo.long_digits) = Raised IntDigitsLimit
  ∧ normalize_id (PyStr (" 1," ++ Demo.long_digits ++ ".0 "))
    = Raised IntDigitsLimit.
Proof. vm_compute. repeat split. Qed.

Example demo_pool : load_reviewer_ids Demo.reviewers = Returned [1; 2; 3; 4; 5].
Proof. vm_compute. reflexivity. Qed.

(** The run on the demo tables: application D is short of reviewers
    because the others have reached the maximum. *)
Example demo_run :
  let r := main Demo.cfg Demo.df Demo.reviewers (initial_store 0 None) in
  r.1 = Returned [{| w_app_id := PyStr "D"; w_found := 1; w_needed := 3 |}]
  ∧ (o_assigned <$> default [] (st_file r.2))
    = [[PyInt 3; PyInt 4; PyInt 2]; [PyInt 5; PyInt 1; PyInt 4];
       [PyInt 5; PyInt 1; PyInt 3]; [PyInt 2; PyStr ""; PyStr ""]]
  ∧ (o_used_fallback <$> default [] (st_file r.2))
    = [false; false; false; true]
  ∧ (load_of (st_loads r.2) <$> [1; 2; 3; 4; 5]) = [2; 2; 2; 2; 2].
Proof. vm_compute. repeat split. Qed.

Example demo_no_id_column :
  let r := main Demo.cfg Demo.df_no_id Demo.reviewers
             (initial_store 0 None) in
  r.1 = Raised MissingApplicationId ∧ st_file r.2 = None.
Proof. vm_compute. split; reflexivity. Qed.

Example demo_no_reviewers :
  let r := main Demo.cfg Demo.df [["id"]; []; ["n/a"]]%string
             (initial_store 0 None) in
  r.1 = Raised NoReviewerIds ∧ st_file r.2 = None.
Proof. vm_compute. split; reflexivity. Qed.

(** A store in which reviewer 2 has reached the maximum of the demo
    and reviewers 3 and 4 have reached its minimum. *)
Definition busy_store : store :=
  {| st_rng := 7;
     st_loads := <[1 := 0]> (<[2 := 2]> (<[3 := 1]> (<[4 := 1]> ∅)));
     st_file := None |}.

Lemma assignments_avoid_exclusions_witness :
  match main Demo.cfg Demo.df Demo.reviewers (initial_store 0 None) with
  | (Returned _, s') =>
      ∃ outs,
        st_file s' = Some outs
        ∧ Forall2
            (λ row out,
               ∃ ex, build_exclusion_set row
                       (get_exclusion_cols Demo.cfg Demo.df) = Returned ex
                     ∧ ∀ rid, rid ∈ assigned_reviewers out → rid ∉ ex)
            (df_rows Demo.df) outs
  | (Raised e, _) => ∀ c, e ≠ ConflictDetected c
  end.
Proof.
  pose proof (@assignments_avoid_exclusions table_float_syntax lcg_random
                Demo.cfg Demo.df Demo.reviewers 0 None) as Hm.
  destruct Hm as (_ & _ & Hm). exact Hm.
Defined.

Lemma loads_never_exceed_max_witness :
  MAX_ASSIGNMENTS_PER_REVIEWER Demo.cfg = Some 2
  ∧ 0 <= 2
  ∧ loads_bounded 2
      (main Demo.cfg (first_applications 3 Demo.df) Demo.reviewers
         (initial_store 0 None)).2.
Proof.
  assert (0 <= 2) as Hpos by lia.
  split; [reflexivity|]. split; [exact Hpos|].
  exact (@loads_never_exceed_max table_float_syntax lcg_random Demo.cfg
           Demo.df Demo.reviewers 0 None 2 3 eq_refl Hpos).
Defined.

Lemma choose_reviewers_bounded_distinct_capped_witness :
  NoDup [1; 2; 3; 4; 5]
  ∧ 0 <= 3
  ∧ ∃ picks,
      (choose_reviewers_with_minmax [1; 2; 3; 4; 5] 3 (Some 1) (Some 2)
         busy_store).1 = Returned picks
      ∧ len picks <= 3
      ∧ NoDup picks
      ∧ ∀ rid, rid ∈ picks →
          rid ∈ [1; 2; 3; 4; 5] ∧ load_of (st_loads busy_store) rid < 2.
Proof.
  assert (NoDup [1; 2; 3; 4; 5]) as Hnd by compute_done.
  split; [exact Hnd|]. split; [lia|].
  assert (0 <= 3) as Hk by lia.
  exact (@choose_reviewers_bounded_distinct_capped lcg_random
           [1; 2; 3; 4; 5] 3 (Some 1) (Some 2) busy_store Hnd Hk).
Defined.

Lemma choose_reviewers_prefers_under_min_witness :
  0 < 1
  ∧ 2 <= len (under_min_of (st_loads busy_store) 1
                (capped_pool (st_loads busy_store) (Some 2)
                   [1; 2; 3; 4; 5]))
  ∧ ∃ picks,
      (choose_reviewers_with_minmax [1; 2; 3; 4; 5] 2 (Some 1) (Some 2)
         busy_store).1 = Returned picks
      ∧ ∀ rid, rid ∈ picks →
          rid ∈ capped_pool (st_loads busy_store) (Some 2) [1; 2; 3; 4; 5]
          ∧ load_of (st_loads busy_store) rid < 1.
Proof.
  assert (2 <= len (under_min_of (st_loads busy_store) 1
                      (capped_pool (st_loads busy_store) (Some 2)
                         [1; 2; 3; 4; 5]))) as Hk
    by (vm_compute; discriminate).
  assert (0 < 1) as Hmn by lia.
  split; [exact Hmn|]. split; [exact Hk|].
  exact (@choose_reviewers_prefers_under_min lcg_random [1; 2; 3; 4; 5]
           2 1 (Some 2) busy_store Hmn Hk).
Defined.

Lemma choose_reviewers_whole_pool_witness :
  len (capped_pool (st_loads busy_store) (Some 2) [1; 2; 3; 4; 5]) <= 6
  ∧ (∃ picks,
        (choose_reviewers_with_minmax [1; 2; 3; 4; 5] 6 (Some 1) (Some 2)
           busy_store).1 = Returned picks
        ∧ picks ≡ₚ capped_pool (st_loads busy_store) (Some 2)
                     [1; 2; 3; 4; 5]).
Proof.
  assert (len (capped_pool (st_loads busy_store) (Some 2) [1; 2; 3; 4; 5])
          <= 6) as Hk by (vm_compute; discriminate).
  split; [exact Hk|].
  pose proof (@choose_reviewers_whole_pool lcg_random [1; 2; 3; 4; 5] 6
                (Some 1) (Some 2) busy_store Hk) as [Hperm _].
  exact Hperm.
Defined.

Lemma normalize_id_total_and_sign_witness :
  within_digit_limit (PyStr " -3 ") = true
  ∧ ∃ r : option Z,
      normalize_id (PyStr " -3 ") = Returned r
      ∧ (∀ z, r = Some z → 0 <= z ∨ negative_reading (PyStr " -3 ") z)
      ∧ (∀ z, negative_reading (PyStr " -3 ") z → r = Some z).
Proof.
  assert (within_digit_limit (PyStr " -3 ") = true) as Hlim
    by reflexivity.
  split; [exact Hlim|].
  exact (normalize_id_total_and_sign table_float_syntax (PyStr " -3 ")
           Hlim).
Defined.

(** C7 (the code departs from it).  The run also aborts, writing no
    output, on a cell that [int] refuses for its number of digits,
    which is none of the three cases of the claim: with a reviewers
    file whose second row starts with a cell of 4301 digits, and with
    an applicants table that has such a cell in an exclusion column
    (the [Application ID] column being there, the reviewer pool having
    five members and no selection meeting an exclusion set), [main]
    raises the [ValueError] of [int] and the output file is not
    written. *)
Theorem main_aborts_on_long_digits :
  let r1 := main Demo.cfg Demo.df Demo.reviewers_long
              (initial_store 0 None) in
  let r2 := main Demo.cfg Demo.df_long Demo.reviewers
              (initial_store 0 None) in
  APPLICATION_ID ∈ df_columns Demo.df
  ∧ APPLICATION_ID ∈ df_columns Demo.df_long
  ∧ load_reviewer_ids Demo.reviewers = Returned [1; 2; 3; 4; 5]
  ∧ normalize_id (PyStr Demo.long_digits) = Raised IntDigitsLimit
  ∧ r1.1 = Raised IntDigitsLimit ∧ st_file r1.2 = None
  ∧ r2.1 = Raised IntDigitsLimit ∧ st_file r2.2 = None.
Proof.
  cbv zeta.
  split; [apply list_elem_of_here|]. split; [apply list_elem_of_here|].
  repeat split; vm_compute; reflexivity.
Qed.

Lemma main_outcomes_witness :
  0 <= ASSIGNMENTS_PER_APPLICATION Demo.cfg
  ∧ match main Demo.cfg Demo.df Demo.reviewers (initial_store 0 None) with
    | (Raised _, _) => False
    | (Returned _, s') =>
        APPLICATION_ID ∈ df_columns Demo.df
        ∧ ∃ outs, st_file s' = Some outs
                  ∧ length outs = length (df_rows Demo.df)
    end.
Proof.
  assert (0 <= ASSIGNMENTS_PER_APPLICATION Demo.cfg) as Hk
    by (simpl; lia).
  split; [exact Hk|].
  pose proof (@main_outcomes table_float_syntax lcg_random Demo.cfg
                Demo.df Demo.reviewers 0 None Hk) as [Hm _].
  assert (load_reviewer_ids Demo.reviewers = Returned [1; 2; 3; 4; 5])
    as Hids by (vm_compute; reflexivity).
  assert (table_within_limit Demo.cfg Demo.df = true) as Hlim
    by (vm_compute; reflexivity).
  destruct (main _ _ _ _) as [[ws|e] s'].
  - destruct Hm as (Hcol & _ & Hout). split; [exact Hcol | exact Hout].
  - destruct e; try exact Hm.
    + destruct Hm as [Hcol _]. apply Hcol. apply list_elem_of_here.
    + destruct Hm as (_ & Hnone & _). rewrite Hids in Hnone.
      discriminate Hnone.
    + destruct Hm as (_ & [Hraise|(row & Hin & Hraise)] & _).
      * rewrite Hids in Hraise. discriminate Hraise.
      * unfold table_within_limit in Hlim.
        rewrite forallb_forall in Hlim.
        apply list_elem_of_In in Hin. specialize (Hlim row Hin).
        destruct (build_exclusion_set_outcome row
                    (get_exclusion_cols Demo.cfg Demo.df))
          as [[_ [ex Hex]]|[Hf _]]; congruence.
Defined.

Lemma underfill_is_reported_witness :
  0 <= ASSIGNMENTS_PER_APPLICATION Demo.cfg
  ∧ APPLICATION_ID ∈ df_columns Demo.df
  ∧ load_reviewer_ids Demo.reviewers = Returned [1; 2; 3; 4; 5]
  ∧ table_within_limit Demo.cfg Demo.df = true
  ∧ ∃ ws outs s' gr,
      main Demo.cfg Demo.df Demo.reviewers (initial_store 0 None)
      = (Returned ws, s')
      ∧ st_file s' = Some outs
      ∧ Forall2 (application_record Demo.cfg
                   (get_exclusion_cols Demo.cfg Demo.df) gr ws)
          (df_rows Demo.df) outs.
Proof.
  assert (0 <= ASSIGNMENTS_PER_APPLICATION Demo.cfg) as Hk
    by (simpl; lia).
  assert (APPLICATION_ID ∈ df_columns Demo.df) as Hcol
    by apply list_elem_of_here.
  assert (load_reviewer_ids Demo.reviewers = Returned [1; 2; 3; 4; 5])
    as Hids by (vm_compute; reflexivity).
  assert (table_within_limit Demo.cfg Demo.df = true) as Hlim
    by (vm_compute; reflexivity).
  split; [exact Hk|]. split; [exact Hcol|]. split; [exact Hids|].
  split; [exact Hlim|].
  pose proof (@underfill_is_reported table_float_syntax lcg_random Demo.cfg
                Hk) as [_ Hrun].
  apply (Hrun Demo.df Demo.reviewers 0 None [1; 2; 3; 4; 5] Hcol Hids);
    [discriminate | exact Hlim].
Defined.

Lemma loads_written_only_by_commit_witness :
  NoDup [1; 2; 3; 4; 5]
  ∧ ∀ (pool : list Z) (k : Z) (min_load max_load : option Z) (s0 : store),
      st_loads (choose_reviewers_with_minmax pool k min_load max_load s0).2
      = st_loads s0.
Proof.
  assert (NoDup [1; 2; 3; 4; 5]) as Hnd by compute_done.
  split; [exact Hnd|].
  pose proof (@loads_written_only_by_commit table_float_syntax lcg_random
                Demo.cfg (get_exclusion_cols Demo.cfg Demo.df)
                [1; 2; 3; 4; 5] ([], [])
                (Demo.application "A" (PyInt 1) PyNone) busy_store Hnd)
    as [Hframe _].
  exact Hframe.
Defined.

End concrete_runs.

(** * Further properties of the code *)

(** ** The pattern and the normalizer *)

Lemma take_drop_while (p : ascii → bool) (s : list ascii) :
  take_while p s ++ drop_while p s = s.
Proof.
  induction s as [|c s IH]; [done|]. simpl.
  destruct (p c); [|done]. simpl. by rewrite IH.
Qed.

Lemma drop_while_head (p : ascii → bool) (s r : list ascii) (c : ascii) :
  drop_while p s = c :: r → p c = false.
Proof.
  induction s as [|d s IH]; [done|]. simpl.
  destruct (p d) eqn:Hd; [done|]. by intros [= <- _].
Qed.

Lemma forallb_Forall_true (p : ascii → bool) (s : list ascii) :
  forallb p s = true ↔ Forall (λ c, p c = true) s.
Proof. by rewrite forallb_forall, <- List.Forall_forall. Qed.

Lemma drop_while_app_all (p : ascii → bool) (l1 l2 : list ascii) :
  forallb p l1 = true → drop_while p (l1 ++ l2) = drop_while p l2.
Proof.
  induction l1 as [|c l1 IH]; [done|]. simpl.
  intros [Hc Hl]%andb_true_iff. rewrite Hc. by apply IH.
Qed.

Lemma take_while_app_all (p : ascii → bool) (l1 l2 : list ascii) :
  forallb p l1 = true → take_while p (l1 ++ l2) = l1 ++ take_while p l2.
Proof.
  induction l1 as [|c l1 IH]; [done|]. simpl.
  intros [Hc Hl]%andb_true_iff. rewrite Hc. by rewrite IH.
Qed.

Lemma is_dot_char (c : ascii) : is_dot c = true ↔ c = "."%char.
Proof.
  unfold is_dot, code. rewrite Nat.eqb_eq. split; [|by intros ->].
  intros Hc. rewrite <- (ascii_nat_embedding c), Hc. reflexivity.
Qed.

Lemma zero_not_space (c : ascii) : is_zero c = true → is_space c = false.
Proof.
  unfold is_zero, is_space. intros Hc%Nat.eqb_eq. by rewrite Hc.
Qed.

Lemma space_not_digit (c : ascii) : is_space c = true → is_digit c = false.
Proof.
  intros Hs. destruct (is_digit c) eqn:Hd; [|done].
  apply digit_not_space in Hd. congruence.
Qed.

Lemma dot_not_digit (c : ascii) : is_dot c = true → is_digit c = false.
Proof. intros ->%is_dot_char. reflexivity. Qed.

Lemma dot_not_space (c : ascii) : is_dot c = true → is_space c = false.
Proof. intros ->%is_dot_char. reflexivity. Qed.

(** The tail of a match: after the digits comes nothing, white space
    to the end, or a dot, at least one zero and white space to the
    end. *)
Lemma pattern_tail_digit_free (zs ws2 : list ascii) :
  forallb is_zero zs = true → forallb is_space ws2 = true →
  take_while is_digit
    (match zs with [] => [] | _ => "."%char :: zs end ++ ws2) = [].
Proof.
  intros Hz Hw. destruct zs as [|z zs]; [|done]. simpl.
  destruct ws2 as [|w ws2]; [done|]. simpl in *.
  apply andb_true_iff in Hw as [Hw _]. by rewrite (space_not_digit w Hw).
Qed.

Lemma match_id_pattern_sound (s g : list ascii) :
  match_id_pattern s = Some g → id_pattern_shape s g.
Proof.
  unfold match_id_pattern. intros Hm.
  pose proof (take_drop_while is_space s) as Hs.
  pose proof (take_while_Forall is_space s) as Hws1.
  pose proof (take_drop_while is_digit (drop_while is_space s)) as Hd.
  pose proof (take_while_Forall is_digit (drop_while is_space s)) as Hg.
  apply forallb_Forall_true in Hws1, Hg.
  destruct (take_while is_digit (drop_while is_space s)) as [|d ds] eqn:Eg;
    [done|].
  destruct (drop_while is_digit (drop_while is_space s)) as [|c rest] eqn:Er.
  { injection Hm as <-. exists (take_while is_space s), [], [].
    repeat split; try done. rewrite <- Hs at 1. rewrite <- Hd.
    by rewrite !app_nil_r. }
  destruct (is_dot c) eqn:Hdot.
  + apply is_dot_char in Hdot as ->.
    pose proof (take_drop_while is_zero rest) as Hz.
    pose proof (take_while_Forall is_zero rest) as Hzs.
    apply forallb_Forall_true in Hzs.
    destruct (take_while is_zero rest) as [|z zs] eqn:Ez; [done|].
    destruct (forallb is_space (drop_while is_zero rest)) eqn:Hw2; [|done].
    injection Hm as <-.
    exists (take_while is_space s), (z :: zs), (drop_while is_zero rest).
    repeat split; try done.
    rewrite <- Hs at 1. rewrite <- Hd. rewrite <- Hz at 1.
    by rewrite <- ?app_assoc.
  + destruct (forallb is_space (c :: rest)) eqn:Hw2; [|done].
    injection Hm as <-.
    exists (take_while is_space s), [], (c :: rest).
    repeat split; try done. rewrite <- Hs at 1. by rewrite <- Hd.
Qed.

Lemma match_id_pattern_complete (s g : list ascii) :
  id_pattern_shape s g → match_id_pattern s = Some g.
Proof.
  intros (ws1 & zs & ws2 & Hws1 & Hne & Hg & Hzs & Hws2 & ->).
  unfold match_id_pattern.
  destruct g as [|d ds]; [done|].
  assert (is_space d = false) as Hd.
  { simpl in Hg. apply andb_true_iff in Hg as [Hg _].
    by apply digit_not_space. }
  rewrite (drop_while_app_all _ ws1) by done.
  assert (drop_while is_space
            ((d :: ds) ++ match zs with [] => [] | _ => "."%char :: zs end
               ++ ws2)
          = (d :: ds) ++ match zs with [] => [] | _ => "."%char :: zs end
              ++ ws2) as -> by (simpl; by rewrite Hd).
  rewrite (take_while_app_all _ (d :: ds)) by done.
  rewrite (drop_while_app_all _ (d :: ds)) by done.
  rewrite (pattern_tail_digit_free zs ws2) by done.
  rewrite app_nil_r.
  destruct zs as [|z zs].
  + destruct ws2 as [|w ws2]; [done|].
    simpl in Hws2. apply andb_true_iff in Hws2 as [Hw Hws2].
    simpl. rewrite (space_not_digit w Hw).
    destruct (is_dot w) eqn:Hdw;
      [apply dot_not_space in Hdw; congruence|].
    simpl. by rewrite Hw, Hws2.
  + assert (drop_while is_digit (("."%char :: z :: zs) ++ ws2)
            = "."%char :: (z :: zs) ++ ws2) as -> by done.
    assert (is_dot "." = true) as -> by done.
    rewrite (take_while_app_all _ (z :: zs)) by done.
    rewrite (drop_while_app_all _ (z :: zs)) by done.
    assert (drop_while is_zero ws2 = ws2) as ->.
    { destruct ws2 as [|w ws2]; [done|]. simpl in *.
      apply andb_true_iff in Hws2 as [Hw _].
      destruct (is_zero w) eqn:Hz; [|done].
      apply zero_not_space in Hz. congruence. }
    simpl. by rewrite Hws2.
Qed.

(** X1.  The matcher accepts exactly the language of the pattern
    [^\s*(\d+)(?:\.0+)?\s*$], and returns its group 1: [s] matches with
    group [g] if and only if [s] is white space, the non-empty digit
    string [g], optionally a dot and one or more zeros, and white
    space. *)
Theorem match_id_pattern_language (s g : list ascii) :
  match_id_pattern s = Some g ↔ id_pattern_shape s g.
Proof.
  split; [apply match_id_pattern_sound | apply match_id_pattern_complete].
Qed.

Lemma drop_while_app_r (p : ascii → bool) (s w : list ascii) :
  forallb p w = true →
  drop_while p (s ++ w)
  = match drop_while p s with [] => [] | t => t ++ w end.
Proof.
  intros Hw. induction s as [|c s IH]; simpl.
  - by rewrite (drop_while_all p w) by (by apply forallb_Forall_true).
  - destruct (p c); [exact IH | done].
Qed.

Lemma strip_app_space_l (w s : list ascii) :
  forallb is_space w = true → strip (w ++ s) = strip s.
Proof. intros Hw. unfold strip. by rewrite drop_while_app_all. Qed.

Lemma strip_app_space_r (s w : list ascii) :
  forallb is_space w = true → strip (s ++ w) = strip s.
Proof.
  intros Hw. unfold strip. rewrite drop_while_app_r by done.
  destruct (drop_while is_space s) as [|c t]; [done|].
  rewrite reverse_app. rewrite drop_while_app_all; [done|].
  apply forallb_Forall_true, Forall_reverse. by apply forallb_Forall_true.
Qed.

Section normalizer_more.
Context `{!PyFloatParser}.

(** X2.  White space around a string does not change what it
    normalizes to, whatever the string and whatever the float parser
    answers. *)
Theorem normalize_id_ignores_padding (ws1 s ws2 : list ascii) :
  forallb is_space ws1 = true →
  forallb is_space ws2 = true →
  normalize_id (PyStr (string_of_list_ascii (ws1 ++ s ++ ws2)))
  = normalize_id (PyStr (string_of_list_ascii s)).
Proof.
  intros H1 H2. unfold normalize_id.
  rewrite !list_ascii_of_string_of_list_ascii.
  by rewrite strip_app_space_l, strip_app_space_r.
Qed.

(** The digit route: a string of the language of the pattern is
    handed to [int], group 1 alone. *)
Lemma normalize_id_digit_route (ws1 d zs ws2 : list ascii) :
  forallb is_space ws1 = true →
  d ≠ [] → forallb is_digit d = true →
  forallb is_zero zs = true →
  forallb is_space ws2 = true →
  match_id_pattern
    (remove_commas
       (strip (ws1 ++ (d ++ match zs with [] => [] | _ => "."%char :: zs end)
                   ++ ws2))) = Some d
  ∧ normalize_id
      (PyStr (string_of_list_ascii
                (ws1 ++ (d ++ match zs with
                              | [] => []
                              | _ => "."%char :: zs
                              end)
                     ++ ws2)))
    = obind (int_of_str d) (λ z, Returned (Some z)).
Proof.
  intros Hw1 Hne Hd Hz Hw2.
  set (core := d ++ match zs with [] => [] | _ => "."%char :: zs end).
  unfold normalize_id. rewrite list_ascii_of_string_of_list_ascii.
  rewrite strip_app_space_l, strip_app_space_r by done.
  assert (Forall (λ c, is_space c = false ∧ is_comma c = false) core) as Hc.
  { apply Forall_app. split.
    - apply forallb_Forall_true in Hd. eapply Forall_impl; [exact Hd|].
      intros c Hc. split; [by apply digit_not_space|].
      unfold is_comma. unfold is_digit in Hc.
      apply andb_true_iff in Hc as [Ha Hb]. apply Nat.leb_le in Ha, Hb.
      apply Nat.eqb_neq. lia.
    - destruct zs as [|z zs']; [constructor|].
      constructor; [done|].
      apply forallb_Forall_true in Hz. eapply Forall_impl; [exact Hz|].
      intros c Hc. split; [by apply zero_not_space|].
      unfold is_comma. unfold is_zero in Hc. apply Nat.eqb_eq in Hc.
      by rewrite Hc. }
  rewrite strip_id by (eapply Forall_impl; [exact Hc | by intros c []]).
  assert (remove_commas core = core) as ->.
  { unfold remove_commas. clear -Hc.
    induction Hc as [|c l [_ Hc] _ IH]; [done|]. simpl.
    by rewrite Hc, IH. }
  assert (core ≠ []) as Hcne by (unfold core; by destruct d).
  assert (match_id_pattern core = Some d) as Hm.
  { apply match_id_pattern_complete.
    exists [], zs, []. unfold core. repeat split; try done.
    by rewrite !app_nil_r. }
  split; [done|].
  destruct core as [|c0 core'] eqn:Ec; [done|]. by rewrite Hm.
Qed.

(** X3.  An unsigned integer literal of at most [INT_MAX_STR_DIGITS]
    digits, written with any number of leading zeros, possibly
    followed by a dot and one or more zeros, and surrounded by any
    white space, normalizes to the integer its digits write; the float
    parser is not consulted. *)
Theorem normalize_id_integer_text (ws1 d zs ws2 : list ascii) :
  forallb is_space ws1 = true →
  d ≠ [] → forallb is_digit d = true →
  Z.of_nat (length d) <= INT_MAX_STR_DIGITS →
  forallb is_zero zs = true →
  forallb is_space ws2 = true →
  normalize_id
    (PyStr (string_of_list_ascii
              (ws1 ++ (d ++ match zs with [] => [] | _ => "."%char :: zs end)
                   ++ ws2)))
  = Returned (Some (int_of_digits d)).
Proof.
  intros Hw1 Hne Hd Hlen Hz Hw2.
  destruct (normalize_id_digit_route ws1 d zs ws2 Hw1 Hne Hd Hz Hw2)
    as [_ ->].
  by rewrite (int_of_str_within d Hlen).
Qed.

(** X24.  The digit limit of [int].  The normalizer raises exactly on
    the values that are beyond the digit limit, and raises nothing but
    the [ValueError] of [int]: the values it raises on are the strings
    that match the digit pattern, once stripped and freed of their
    commas, with a digit run of more than [INT_MAX_STR_DIGITS] digits.
    So an unsigned integer literal (leading zeros counted, a
    fractional part of zeros and surrounding white space not counted)
    makes the normalizer raise exactly when it has more than
    [INT_MAX_STR_DIGITS] digits. *)
Theorem normalize_id_digit_limit (val : pyval) :
  (normalize_id val = Raised IntDigitsLimit
   ↔ within_digit_limit val = false)
  ∧ (∀ e, normalize_id val = Raised e → e = IntDigitsLimit)
  ∧ (∀ ws1 d zs ws2 : list ascii,
       val = PyStr (string_of_list_ascii
                      (ws1 ++ (d ++ match zs with
                                    | [] => []
                                    | _ => "."%char :: zs
                                    end)
                           ++ ws2)) →
       forallb is_space ws1 = true →
       d ≠ [] → forallb is_digit d = true →
       forallb is_zero zs = true →
       forallb is_space ws2 = true →
       (normalize_id val = Raised IntDigitsLimit
        ↔ INT_MAX_STR_DIGITS < Z.of_nat (length d))).
Proof.
  split; [|split].
  - destruct (normalize_id_outcome val) as [[Hl [r Hr]]|[Hl Hr]];
      rewrite Hl, Hr; split; done.
  - intros e He.
    destruct (normalize_id_outcome val) as [[_ [r Hr]]|[_ Hr]];
      congruence.
  - intros ws1 d zs ws2 -> Hw1 Hne Hd Hz Hw2.
    destruct (normalize_id_digit_route ws1 d zs ws2 Hw1 Hne Hd Hz Hw2)
      as [_ ->].
    unfold int_of_str.
    destruct (Z.ltb_spec INT_MAX_STR_DIGITS (Z.of_nat (length d)));
      cbn [obind]; split; (done || lia).
Qed.

(** X4.  A float normalizes to the integer [z] exactly when [z] is
    the value of the float: no rounding takes place, and infinities,
    NaN and floats with a fractional part normalize to [None]. *)
Theorem normalize_id_float_exact (f : spec_float) :
  (∀ z, normalize_id (PyFloat f) = Returned (Some z) ↔ float_is f z)
  ∧ (normalize_id (PyFloat f) = Returned None ↔ ∀ z, ¬ float_is f z).
Proof.
  destruct f as [s|s| |s m e]; simpl.
  - split; [intros z; split; [by intros [= <-] | by intros ->]|].
    split; [done|]. intros Hz. by destruct (Hz 0).
  - split; [intros z; split; [done | tauto]|]. split; [tauto | done].
  - split; [intros z; split; [done | tauto]|]. split; [tauto | done].
  - destruct (Z.leb_spec 0 e) as [He|He]; simpl.
    + split.
      * intros z. destruct s; split; intros Hz;
          ((injection Hz as <-; lia) || (f_equal; f_equal; lia)).
      * split; [done|]. intros Hz.
        by destruct (Hz ((if s then - Z.pos m else Z.pos m) * 2 ^ e)).
    + assert (0 < 2 ^ (- e)) as Hp by (apply Z.pow_pos_nonneg; lia).
      destruct (Z.eqb_spec (Z.pos m mod 2 ^ (- e)) 0) as [Hm|Hm]; simpl.
      * assert (Z.pos m = 2 ^ (- e) * (Z.pos m / 2 ^ (- e))) as Hex
          by (apply Z_div_exact_full_2; lia).
        split.
        -- intros z. split.
           ++ intros [= <-]. destruct s; lia.
           ++ intros Hz. f_equal. f_equal. destruct s; nia.
        -- split; [done|]. intros Hz.
           destruct (Hz (if s then - (Z.pos m / 2 ^ (- e))
                         else Z.pos m / 2 ^ (- e))).
           destruct s; lia.
      * split.
        -- intros z. split; [done|]. intros Hz. exfalso. apply Hm.
           destruct s.
           ++ replace (Z.pos m) with ((- z) * 2 ^ (- e)) by lia.
              apply Z_mod_mult.
           ++ rewrite <- Hz. apply Z_mod_mult.
        -- split; [|done]. intros _ z Hz. apply Hm.
           destruct s.
           ++ replace (Z.pos m) with ((- z) * 2 ^ (- e)) by lia.
              apply Z_mod_mult.
           ++ rewrite <- Hz. apply Z_mod_mult.
Qed.

End normalizer_more.

(** ** The reviewer pool builder and the exclusion resolver *)

Lemma elem_of_first_occurrences (l : list Z) (x : Z) :
  x ∈ first_occurrences l ↔ x ∈ l.
Proof.
  induction l as [|y l IH]; [done|]. simpl.
  rewrite !elem_of_cons, list_elem_of_filter, IH.
  destruct (decide (x = y)); tauto.
Qed.

Lemma NoDup_first_occurrences (l : list Z) : NoDup (first_occurrences l).
Proof.
  induction l as [|y l IH]; simpl; [constructor|].
  constructor; [|by apply NoDup_filter].
  rewrite list_elem_of_filter. by intros [? _].
Qed.

Lemma first_occurrences_NoDup (l : list Z) :
  NoDup l → first_occurrences l = l.
Proof.
  induction 1 as [|x l Hx Hnd IH]; [done|]. simpl. rewrite IH. f_equal.
  clear IH Hnd. induction l as [|y l IH]; [done|].
  apply not_elem_of_cons in Hx as [Hne Hx].
  rewrite filter_cons_True by congruence. by rewrite IH.
Qed.

Lemma first_occurrences_app (l1 l2 : list Z) :
  first_occurrences (l1 ++ l2)
  = first_occurrences l1
    ++ filter (λ y, y ∉ l1) (first_occurrences l2).
Proof.
  induction l1 as [|x l1 IH]; simpl.
  - symmetry. induction (first_occurrences l2) as [|y l IHl]; [done|].
    rewrite filter_cons_True by apply not_elem_of_nil. by rewrite IHl.
  - f_equal. rewrite IH, filter_app. f_equal.
    rewrite list_filter_filter. apply list_filter_iff. intros y.
    rewrite not_elem_of_cons. tauto.
Qed.

Lemma first_occurrences_sublist (l : list Z) :
  first_occurrences l `sublist_of` l.
Proof.
  induction l as [|x l IH]; simpl; [done|].
  apply sublist_skip. etrans; [apply sublist_filter | exact IH].
Qed.

Lemma omap_length_le {A B} (f : A → option B) (l : list A) :
  (length (omap f l) ≤ length l)%nat.
Proof.
  induction l as [|x l IH]; [done|]. cbn [omap list_omap].
  destruct (f x); simpl; lia.
Qed.

Lemma forallb_Permutation {A} (p : A → bool) (l l' : list A) :
  l ≡ₚ l' → forallb p l = forallb p l'.
Proof.
  induction 1 as [|x l l' _ IH|x y l|l l1 l2 _ IH1 _ IH2]; simpl;
    [done | by rewrite IH | | congruence].
  by destruct (p x), (p y).
Qed.

Section builder_facts.
Context {parser : PyFloatParser}.

Lemma normalize_id_normalized (val : pyval) :
  within_digit_limit val = true →
  normalize_id val = Returned (normalized val).
Proof.
  intros Hlim. unfold normalized.
  by destruct (normalize_id_returns val Hlim) as [r ->].
Qed.

Lemma normalized_Some (val : pyval) (rid : Z) :
  normalized val = Some rid ↔ normalize_id val = Returned (Some rid).
Proof.
  unfold normalized. destruct (normalize_id val) as [r|e].
  - split; [by intros -> | by intros [=]].
  - split; discriminate.
Qed.

Lemma collect_ids_spec (rows : list (list string)) :
  ∀ ids,
    collect_ids rows ids
    = if file_within_limit rows
      then Returned (ids ++ candidate_ids rows)
      else Raised IntDigitsLimit.
Proof.
  unfold file_within_limit.
  induction rows as [|row rows IH]; intros ids.
  - simpl. by rewrite app_nil_r.
  - cbn [collect_ids forallb]. destruct row as [|raw rest].
    + rewrite IH. done.
    + unfold candidate_ids. cbn [omap list_omap].
      fold (candidate_ids rows). unfold normalized at 1.
      destruct (normalize_id_outcome (PyStr raw))
        as [[-> [r ->]]|[-> ->]]; cbn [obind andb]; [|done].
      destruct r as [r|]; rewrite IH; [|done].
      by rewrite <- app_assoc.
Qed.

Lemma dedup_ids_spec (ids : list Z) :
  ∀ (seen : gset Z) (uniq : list Z),
    dedup_ids ids seen uniq
    = uniq ++ filter (λ y, y ∉ seen) (first_occurrences ids).
Proof.
  induction ids as [|x ids IH]; intros seen uniq.
  - simpl. by rewrite app_nil_r.
  - cbn [dedup_ids first_occurrences]. case_decide as Hx.
    + rewrite IH, <- app_assoc. f_equal.
      rewrite filter_cons_True by done. simpl. f_equal.
      rewrite list_filter_filter. apply list_filter_iff. intros y.
      rewrite not_elem_of_union, elem_of_singleton. tauto.
    + rewrite IH. f_equal.
      rewrite filter_cons_False by (by intros ?).
      rewrite list_filter_filter. apply list_filter_iff. intros y.
      split; [|tauto]. intros Hy. split; [done|]. by intros ->.
Qed.

Lemma load_reviewer_ids_eq (reviewers : list (list string)) :
  load_reviewer_ids reviewers
  = if file_within_limit reviewers
    then Returned (first_occurrences (candidate_ids reviewers))
    else Raised IntDigitsLimit.
Proof.
  unfold load_reviewer_ids. rewrite collect_ids_spec.
  destruct (file_within_limit reviewers); [|done]. cbn [obind app].
  rewrite dedup_ids_spec. cbn [app]. f_equal.
  induction (first_occurrences _) as [|y l IH]; [done|].
  rewrite filter_cons_True by apply not_elem_of_empty. by rewrite IH.
Qed.

(** X5.  When [int] converts the first cell of every row, the two
    loops of the pool builder compute the identifiers of the first
    cells of the non-empty rows, in file order, each kept at its first
    occurrence; when some first cell has too many digits, the builder
    raises the error of [int]. *)
Theorem load_reviewer_ids_first_occurrences (reviewers : list (list string)) :
  load_reviewer_ids reviewers
  = if file_within_limit reviewers
    then Returned (first_occurrences (candidate_ids reviewers))
    else Raised IntDigitsLimit.
Proof.
  unfold load_reviewer_ids.
  rewrite (collect_ids_spec reviewers []).
  destruct (file_within_limit reviewers); [|done]. cbn [obind app].
  rewrite (dedup_ids_spec (candidate_ids reviewers) ∅ []). cbn [app].
  f_equal.
  induction (first_occurrences (candidate_ids reviewers)) as [|y l IH];
    [done|].
  rewrite filter_cons_True by apply not_elem_of_empty. by rewrite IH.
Qed.

Lemma elem_of_candidate_ids (rows : list (list string)) (rid : Z) :
  rid ∈ candidate_ids rows ↔
  ∃ raw rest, (raw :: rest) ∈ rows
              ∧ normalize_id (PyStr raw) = Returned (Some rid).
Proof.
  unfold candidate_ids. rewrite list_elem_of_omap. split.
  - intros ([|raw rest] & Hin & Hn); [done|].
    exists raw, rest. by rewrite <- normalized_Some.
  - intros (raw & rest & Hin & Hn). exists (raw :: rest).
    by rewrite normalized_Some.
Qed.

(** X6.  When the pool builder returns, the reviewer pool has no
    repetition and holds exactly the identifiers that the first cell
    of some row of the file normalizes to; rows that are empty, and
    rows whose first cell is not an identifier, contribute nothing,
    and cells after the first are never read.  The builder raises
    nothing but the error of [int], and only when some first cell has
    too many digits. *)
Theorem load_reviewer_ids_members (reviewers : list (list string)) :
  match load_reviewer_ids reviewers with
  | Returned ids =>
      file_within_limit reviewers = true
      ∧ NoDup ids
      ∧ ids `sublist_of` candidate_ids reviewers
      ∧ ∀ rid, rid ∈ ids ↔
          ∃ raw rest, (raw :: rest) ∈ reviewers
                      ∧ normalize_id (PyStr raw) = Returned (Some rid)
  | Raised e =>
      e = IntDigitsLimit ∧ file_within_limit reviewers = false
  end.
Proof.
  rewrite load_reviewer_ids_eq.
  destruct (file_within_limit reviewers); [|done].
  split; [done|]. split; [apply NoDup_first_occurrences|].
  split; [apply first_occurrences_sublist|].
  intros rid. by rewrite elem_of_first_occurrences, elem_of_candidate_ids.
Qed.

(** X7.  Appending rows to the reviewers file keeps the pool built
    from the earlier rows as a prefix: when the builder returns on
    each of two files, the pool of the two files put end to end is the
    pool of the first followed by the identifiers of the pool of the
    second that the first does not have.  In particular a file whose
    identifiers are all distinct gives them back in file order. *)
Theorem load_reviewer_ids_app (rows1 rows2 : list (list string))
    (ids1 ids2 : list Z) :
  load_reviewer_ids rows1 = Returned ids1 →
  load_reviewer_ids rows2 = Returned ids2 →
  load_reviewer_ids (rows1 ++ rows2)
  = Returned (ids1 ++ filter (λ rid, rid ∉ ids1) ids2)
  ∧ (NoDup (candidate_ids rows1) → ids1 = candidate_ids rows1).
Proof.
  rewrite !load_reviewer_ids_eq. unfold file_within_limit.
  rewrite forallb_app.
  destruct (forallb _ rows1); [|done]. destruct (forallb _ rows2); [|done].
  intros [= <-] [= <-]. split.
  - cbn [andb]. f_equal.
    unfold candidate_ids at 1. rewrite omap_app.
    fold (candidate_ids rows1) (candidate_ids rows2).
    rewrite first_occurrences_app. f_equal.
    apply list_filter_iff. intros y. by rewrite elem_of_first_occurrences.
  - apply first_occurrences_NoDup.
Qed.

(** *** Exclusion sets *)

Lemma build_exclusion_loop_spec (row : gmap string pyval)
    (cols : list string) :
  ∀ excluded,
    build_exclusion_loop row cols excluded
    = if row_within_limit cols row
      then Returned (exclusion_of cols row ∪ excluded)
      else Raised IntDigitsLimit.
Proof.
  unfold row_within_limit.
  induction cols as [|col cols IH]; intros excluded.
  - simpl. f_equal. unfold exclusion_of. simpl.
    by rewrite union_empty_l_L.
  - cbn [build_exclusion_loop forallb].
    unfold exclusion_of. cbn [omap list_omap].
    fold (exclusion_of cols row). unfold normalized at 1.
    destruct (normalize_id_outcome (row_get row col))
      as [[-> [r ->]]|[-> ->]]; cbn [obind andb]; [|done].
    destruct r as [r|]; rewrite IH; [|done].
    destruct (forallb _ cols); [|done].
    f_equal. rewrite list_to_set_cons. fold (exclusion_of cols row).
    apply set_eq. intros x. rewrite !elem_of_union. tauto.
Qed.

Lemma build_exclusion_set_eq (row : gmap string pyval) (cols : list string) :
  build_exclusion_set row cols
  = if row_within_limit cols row
    then Returned (exclusion_of cols row)
    else Raised IntDigitsLimit.
Proof.
  unfold build_exclusion_set. rewrite build_exclusion_loop_spec.
  by rewrite union_empty_r_L.
Qed.

Lemma build_exclusion_set_returned (row : gmap string pyval)
    (cols : list string) (ex : gset Z) :
  build_exclusion_set row cols = Returned ex → ex = exclusion_of cols row.
Proof.
  rewrite build_exclusion_set_eq.
  destruct (row_within_limit cols row); [by intros [= <-] | done].
Qed.

Lemma elem_of_exclusion_of (cols : list string) (row : gmap string pyval)
    (rid : Z) :
  rid ∈ exclusion_of cols row ↔
  ∃ col, col ∈ cols ∧ normalize_id (row_get row col) = Returned (Some rid).
Proof.
  unfold exclusion_of. rewrite elem_of_list_to_set, list_elem_of_omap.
  split; intros (col & Hin & Hn); exists col; split; try done;
    by apply normalized_Some.
Qed.

Lemma size_list_to_set_le (l : list Z) :
  (size (list_to_set l : gset Z) ≤ length l)%nat.
Proof.
  induction l as [|x l IH]; [by rewrite list_to_set_nil, size_empty|].
  rewrite list_to_set_cons, size_union_alt, size_singleton. simpl.
  assert (list_to_set l ∖ {[x]} ⊆ (list_to_set l : gset Z)) as Hsub
    by (intros y [? _]%elem_of_difference; done).
  apply subseteq_size in Hsub. lia.
Qed.

(** X8.  When the exclusion resolver returns, the set it returns
    holds exactly the identifiers that the cells of the record under
    the exclusion columns normalize to, so it has at most one member
    per exclusion column.  The resolver raises nothing but the error of
    [int], and only when one of these cells has too many digits. *)
Theorem build_exclusion_set_members (row : gmap string pyval)
    (cols : list string) :
  match build_exclusion_set row cols with
  | Returned ex =>
      row_within_limit cols row = true
      ∧ (∀ rid, rid ∈ ex ↔
           ∃ col, col ∈ cols
                  ∧ normalize_id (row_get row col) = Returned (Some rid))
      ∧ (size ex ≤ length cols)%nat
  | Raised e =>
      e = IntDigitsLimit ∧ row_within_limit cols row = false
  end.
Proof.
  rewrite build_exclusion_set_eq.
  destruct (row_within_limit cols row); [|done].
  split; [done|]. split; [apply elem_of_exclusion_of|].
  unfold exclusion_of. etrans; [apply size_list_to_set_le|].
  apply omap_length_le.
Qed.

(** X9.  The exclusion set does not depend on the order of the
    exclusion columns, and a column that the record lacks, or whose
    cell is empty ([None]), contributes nothing: a record with no
    usable exclusion cell has the empty exclusion set. *)
Theorem build_exclusion_set_insensitive (row : gmap string pyval)
    (cols cols' : list string) :
  (cols ≡ₚ cols' →
   build_exclusion_set row cols = build_exclusion_set row cols')
  ∧ (∀ col, row_get row col = PyNone →
       build_exclusion_set row (col :: cols) = build_exclusion_set row cols)
  ∧ ((∀ col, col ∈ cols → row !! col = None) →
     build_exclusion_set row cols = Returned ∅).
Proof.
  split; [|split].
  - intros Hp. rewrite !build_exclusion_set_eq. unfold row_within_limit.
    rewrite (forallb_Permutation _ cols cols' Hp).
    destruct (forallb _ cols'); [|done]. f_equal.
    unfold exclusion_of. by rewrite Hp.
  - intros col Hc. rewrite !build_exclusion_set_eq.
    unfold row_within_limit. cbn [forallb]. rewrite Hc. cbn [andb].
    change (within_digit_limit PyNone) with true. cbn [andb].
    destruct (forallb _ cols); [|done]. f_equal.
    unfold exclusion_of. cbn [omap list_omap].
    unfold normalized at 1. by rewrite Hc.
  - intros Hnone. rewrite build_exclusion_set_eq.
    assert (row_within_limit cols row = true) as ->.
    { unfold row_within_limit. apply forallb_forall. intros col Hin.
      apply list_elem_of_In in Hin. unfold row_get.
      by rewrite (Hnone col Hin). }
    f_equal.
    apply set_eq. intros rid. rewrite elem_of_exclusion_of.
    split; [|by intros ?%not_elem_of_empty].
    intros (col & Hin & Hn). unfold row_get in Hn.
    by rewrite (Hnone col Hin) in Hn.
Qed.

End builder_facts.

(** ** The selectors *)

Section selector_more.
Context {parser : PyFloatParser} {random : PyRandom}.

(** X10.  For [k ≥ 0] the selector returns exactly [min(k, n)]
    reviewers, [n] being the size of the pool left by the hard cap; so
    it returns fewer than [k] only when fewer than [k] reviewers are
    under the cap, and then it returns every one of them. *)
Theorem choose_reviewers_fills_when_possible
    (pool : list Z) (k : Z) (min_load max_load : option Z) (s : store) :
  0 <= k →
  ∃ picks,
    (choose_reviewers_with_minmax pool k min_load max_load s).1
    = Returned picks
    ∧ len picks
      = Z.min k (len (capped_pool (st_loads s) max_load pool))
    ∧ (len picks < k →
       picks ≡ₚ capped_pool (st_loads s) max_load pool).
Proof.
  intros Hk.
  destruct (choose_spec pool k min_load max_load s)
    as [(picks & g' & rest & Hrun & Hperm & Hlen & _)|(? & _)]; [|lia].
  exists picks. rewrite Hrun. split; [done|].
  split; [unfold len; lia|]. intros Hlt.
  assert (rest = []) as ->.
  { apply Permutation_length in Hperm. rewrite length_app in Hperm.
    unfold len in Hlt. destruct rest; [done | simpl in Hperm; lia]. }
  by rewrite app_nil_r in Hperm.
Qed.

(** X11.  Edge cases of the selector.  When no reviewer of the pool is
    under the cap it returns the empty list and leaves the whole
    state, generator included, as it was.  For a negative [k] and a
    non-empty capped pool it raises the error of [random.sample] when
    the soft minimum is off, the state being untouched, and returns
    the empty list when the soft minimum is on. *)
Theorem choose_reviewers_edge_cases
    (pool : list Z) (k : Z) (min_load max_load : option Z) (s : store) :
  let capped := capped_pool (st_loads s) max_load pool in
  (capped = [] →
   choose_reviewers_with_minmax pool k min_load max_load s = (Returned [], s))
  ∧ (k < 0 → capped ≠ [] → soft_min min_load = None →
     choose_reviewers_with_minmax pool k min_load max_load s
     = (Raised SampleOutOfRange, s))
  ∧ (k <= 0 → soft_min min_load ≠ None →
     (choose_reviewers_with_minmax pool k min_load max_load s).1
     = Returned []).
Proof.
  intros capped. split; [apply choose_empty_run|]. split.
  - intros Hk Hne Hm.
    destruct (choose_spec pool k min_load max_load s)
      as [(picks & g' & rest & Hrun & Hperm & Hlen & _)|(_ & _ & _ & Hrun)];
      [|done].
    rewrite choose_sample_run in Hrun by done. fold capped in Hrun.
    unfold random_sample in Hrun.
    destruct (Z.ltb_spec (Z.min k (len capped)) 0); [done|].
    unfold len in *. lia.
  - intros Hk Hm.
    destruct (choose_spec pool k min_load max_load s)
      as [(picks & g' & rest & Hrun & Hperm & Hlen & _)|(_ & Hnone & _)];
      [|done].
    rewrite Hrun. simpl. f_equal.
    destruct picks; [done | simpl in Hlen; lia].
Qed.

(** X12.  With the soft minimum on, the picks are some under-minimum
    reviewers followed by some reviewers at or above the minimum, and
    a reviewer at or above the minimum is picked only when every
    under-minimum reviewer of the capped pool has been picked. *)
Theorem choose_reviewers_exhausts_under_min
    (pool : list Z) (k : Z) (mn : Z) (max_load : option Z) (s : store) :
  0 < mn →
  let capped := capped_pool (st_loads s) max_load pool in
  ∃ picks pu pa,
    (choose_reviewers_with_minmax pool k (Some mn) max_load s).1
    = Returned picks
    ∧ picks = pu ++ pa
    ∧ Forall (λ rid, load_of (st_loads s) rid < mn) pu
    ∧ Forall (λ rid, mn <= load_of (st_loads s) rid) pa
    ∧ (pa ≠ [] → pu ≡ₚ under_min_of (st_loads s) mn capped).
Proof.
  intros Hmn capped.
  assert (soft_min (Some mn) = Some mn) as Hsm
    by (simpl; destruct (Z.leb_spec mn 0); [lia | done]).
  destruct (choose_spec pool k (Some mn) max_load s)
    as [(picks & g' & rest & Hrun & Hperm & Hlen & Hsoft)
       |(_ & Hnone & _)]; [|congruence].
  destruct (Hsoft mn Hsm) as (u & a & Hu & Ha & ->). fold capped in Hu, Ha.
  exists (take (Z.to_nat k) (u ++ a)), (take (Z.to_nat k) u),
         (take (Z.to_nat k - length u) a).
  rewrite Hrun. split; [done|]. split; [apply take_app|].
  assert (Forall (λ rid, load_of (st_loads s) rid < mn) u) as Hfu.
  { rewrite Hu. unfold under_min_of. apply Forall_forall.
    by intros x [? _]%list_elem_of_filter. }
  assert (Forall (λ rid, mn <= load_of (st_loads s) rid) a) as Hfa.
  { rewrite Ha. unfold at_or_above_min_of. apply Forall_forall.
    by intros x [? _]%list_elem_of_filter. }
  split; [by apply Forall_take|]. split; [by apply Forall_take|].
  intros Hpa. rewrite take_ge; [done|].
  destruct (decide (length u ≤ Z.to_nat k)%nat); [done|].
  replace (Z.to_nat k - length u)%nat with 0%nat in Hpa by lia.
  by rewrite take_0 in Hpa.
Qed.

(** X13.  The selector without bounds, [choose_reviewers]: for
    [k ≥ 0] it returns [min(k, n)] reviewers taken at distinct
    positions of a pool of size [n] (the empty list, without using the
    generator, on an empty pool), touching nothing but the generator;
    for [k < 0] it raises the error of [random.sample], even on an
    empty pool. *)
Theorem choose_reviewers_spec (pool : list Z) (k : Z) (s : store) :
  (0 <= k →
   ∃ picks g' rest,
     choose_reviewers pool k s = (Returned picks, set_rng g' s)
     ∧ len picks = Z.min k (len pool)
     ∧ picks ++ rest ≡ₚ pool
     ∧ (pool = [] → g' = st_rng s))
  ∧ (k < 0 → choose_reviewers pool k s = (Raised SampleOutOfRange, s)).
Proof.
  unfold choose_reviewers, random_sample. split.
  - intros Hk. destruct (Z.leb_spec (len pool) k) as [Hle|Hgt].
    + destruct pool as [|x pool].
      { exists [], (st_rng s), []. rewrite set_rng_same.
        split; [done|]. split; [unfold len; simpl; lia|]. by split. }
      destruct (Z.ltb_spec (len (x :: pool)) 0); [unfold len in *; lia|].
      destruct (Z.ltb_spec (Z.of_nat (length (x :: pool)))
                  (len (x :: pool))); [unfold len in *; lia|].
      cbn [orb]. unfold with_rng.
      destruct (sample_perm (x :: pool) (Z.to_nat (len (x :: pool)))
                  (st_rng s)) as [Hl [rest Hrest]];
        [unfold len; lia|].
      destruct (sample (x :: pool) _ (st_rng s)) as [picks g'].
      exists picks, g', rest. simpl in Hl, Hrest.
      split; [done|]. split; [unfold len in *; lia|]. by split.
    + destruct (Z.ltb_spec k 0); [lia|].
      destruct (Z.ltb_spec (Z.of_nat (length pool)) k);
        [unfold len in *; lia|].
      cbn [orb]. unfold with_rng.
      destruct (sample_perm pool (Z.to_nat k) (st_rng s))
        as [Hl [rest Hrest]]; [unfold len in *; lia|].
      destruct (sample pool _ (st_rng s)) as [picks g'].
      exists picks, g', rest. simpl in Hl, Hrest.
      split; [done|]. split; [unfold len in *; lia|]. split; [done|].
      intros ->. unfold len in Hgt. simpl in Hgt. lia.
  - intros Hk. destruct (Z.leb_spec (len pool) k); [unfold len in *; lia|].
    destruct (Z.ltb_spec k 0); [done | lia].
Qed.

(** X14.  With no maximum and the soft minimum off, the load-aware
    selector is the selector without bounds: the two return the same
    picks and leave the same state, for every pool and [k] except the
    empty pool with a negative [k] (where the former returns the
    empty list and the latter raises). *)
Theorem choose_reviewers_with_minmax_unbounded
    (pool : list Z) (k : Z) (min_load : option Z) (s : store) :
  soft_min min_load = None →
  (pool ≠ [] ∨ 0 <= k →
   choose_reviewers_with_minmax pool k min_load None s
   = choose_reviewers pool k s)
  ∧ (k < 0 →
     choose_reviewers_with_minmax [] k min_load None s = (Returned [], s)
     ∧ choose_reviewers [] k s = (Raised SampleOutOfRange, s)).
Proof.
  intros Hm. split.
  - intros Hcase. destruct pool as [|x pool].
    + destruct Hcase as [|Hk]; [done|].
      rewrite choose_empty_run by done. unfold choose_reviewers.
      by destruct (Z.leb_spec (len []) k); [|unfold len in *; simpl in *; lia].
    + rewrite choose_sample_run by done. cbn [capped_pool].
      unfold choose_reviewers.
      destruct (Z.leb_spec (len (x :: pool)) k).
      * by rewrite Z.min_r by done.
      * by rewrite Z.min_l by lia.
  - intros Hk. split; [by apply choose_empty_run|].
    unfold choose_reviewers, random_sample.
    destruct (Z.leb_spec (len []) k); [unfold len in *; simpl in *; lia|].
    by destruct (Z.ltb_spec k 0); [|lia].
Qed.

End selector_more.

(** ** The run as a whole *)

Section run_more.
Context {parser : PyFloatParser} {random : PyRandom}.

Lemma warning_of_out_record (cfg : config) (app_id : pyval) (ex : gset Z)
    (eligible picks : list Z) :
  len picks <= Z.max 0 (ASSIGNMENTS_PER_APPLICATION cfg) →
  warning_of_record (ASSIGNMENTS_PER_APPLICATION cfg)
    (out_record cfg app_id ex eligible picks)
  = if len picks <? ASSIGNMENTS_PER_APPLICATION cfg
    then Some (underfill_warning cfg app_id picks) else None.
Proof.
  intros Hlen. unfold warning_of_record.
  rewrite assigned_reviewers_out_record by done.
  cbn [out_record o_used_fallback o_app_id]. by destruct (_ <? _).
Qed.

(** The loop, told by the records it appends. *)
Lemma allocation_loop_trace (cfg : config) (cols : list string)
    (gr : list Z) (rows : list (gmap string pyval)) :
  NoDup gr →
  ∀ (outs : list out_row) (ws : list warning) (s : store)
    (outs' : list out_row) (ws' : list warning) (s' : store),
    allocation_loop cfg cols gr rows (outs, ws) s
    = (Returned (outs', ws'), s') →
    ∃ news,
      outs' = outs ++ news
      ∧ Forall2 (record_of cfg cols gr) rows news
      ∧ ws' = ws ++ omap (warning_of_record
                            (ASSIGNMENTS_PER_APPLICATION cfg)) news
      ∧ st_loads s' = loads_after news (st_loads s).
Proof.
  intros Hnd. induction rows as [|row rows IH];
    intros outs ws s outs' ws' s' Hrun.
  { injection Hrun as <- <- <-. exists []. rewrite !app_nil_r.
    by repeat split. }
  cbn [allocation_loop] in Hrun. unfold bind at 1 in Hrun.
  destruct (process_application_spec cfg cols gr outs ws row s)
    as [[_ Hstep]
       |(ex & Hex & [(picks & g' & rest & _ & Hperm & Hlen & Hstep)
                    |(_ & _ & _ & Hstep)])];
    rewrite Hstep in Hrun; [done| |done].
  pose proof (build_exclusion_set_returned row cols ex Hex) as ->.
  apply IH in Hrun as (news & -> & Hall & -> & Hloads).
  assert (len picks <= Z.max 0 (ASSIGNMENTS_PER_APPLICATION cfg)) as Hk
    by (unfold len; lia).
  eexists (_ :: news). split; [by rewrite <- app_assoc|].
  split; [|split].
  - constructor; [|done]. split; [exact Hex|]. exists picks.
    assert (NoDup (picks ++ rest)) as Hnd'.
    { rewrite Hperm. by apply NoDup_capped_pool, NoDup_filter. }
    apply NoDup_app in Hnd' as [Hndp _].
    split; [done|]. split; [|done].
    intros rid Hin.
    assert (rid ∈ picks ++ rest) as Hc by (apply elem_of_app; by left).
    rewrite Hperm in Hc. apply elem_of_capped_pool in Hc as [Hc _].
    apply list_elem_of_filter in Hc. tauto.
  - cbn [omap list_omap]. rewrite warning_of_out_record by done.
    destruct (_ <? _); by rewrite <- ?app_assoc.
  - rewrite Hloads. cbn [set_loads set_rng st_loads].
    unfold loads_after at 2. cbn [fold_left].
    by rewrite assigned_reviewers_out_record.
Qed.

Lemma load_of_loads_after (outs : list out_row) (rid : Z) :
  Forall (λ out, NoDup (assigned_reviewers out)) outs →
  ∀ loads,
    load_of (loads_after outs loads) rid
    = load_of loads rid
      + Z.of_nat (length (filter (λ out, rid ∈ assigned_reviewers out) outs)).
Proof.
  induction 1 as [|out outs Hnd _ IH]; intros loads; [simpl; lia|].
  unfold loads_after. cbn [fold_left].
  fold (loads_after outs (commit_loads (assigned_reviewers out) loads)).
  rewrite IH, load_of_commit by done. rewrite filter_cons.
  destruct (decide (rid ∈ assigned_reviewers out)); simpl; lia.
Qed.

Lemma record_of_assigned (cfg : config) (cols : list string) (gr : list Z)
    (row : gmap string pyval) (out : out_row) :
  record_of cfg cols gr row out →
  NoDup (assigned_reviewers out)
  ∧ (∀ rid, rid ∈ assigned_reviewers out →
       rid ∈ gr ∧ rid ∉ exclusion_of cols row)
  ∧ o_app_id out = row_get row APPLICATION_ID
  ∧ o_excluded_count out = size (exclusion_of cols row)
  ∧ o_eligible_size out
    = length (filter (λ rid, rid ∉ exclusion_of cols row) gr).
Proof.
  intros (_ & picks & Hnd & Hin & Hlen & ->).
  rewrite assigned_reviewers_out_record by done.
  split; [done|]. split; [done|]. by repeat split.
Qed.

(** What a run that reaches the loop leaves behind. *)
Lemma main_trace (cfg : config) (df : dataframe)
    (reviewers : list (list string)) (g : rng)
    (file : option (list out_row)) (ws : list warning) (s' : store) :
  main cfg df reviewers (initial_store g file) = (Returned ws, s') →
  ∃ ids gr outs,
    load_reviewer_ids reviewers = Returned ids
    ∧ ids ≠ [] ∧ NoDup gr ∧ gr ≡ₚ ids
    ∧ st_file s' = Some outs
    ∧ Forall2 (record_of cfg (get_exclusion_cols cfg df) gr)
        (df_rows df) outs
    ∧ ws = omap (warning_of_record (ASSIGNMENTS_PER_APPLICATION cfg)) outs
    ∧ st_loads s' = loads_after outs (zero_loads gr).
Proof.
  rewrite main_unfold. cbv zeta. case_decide; [done|].
  destruct (load_reviewer_ids_outcome reviewers)
    as [[_ (ids & Hids & Hnd)]|[_ Hids]]; rewrite Hids; [|done].
  destruct ids as [|x ids]; [done|].
  pose proof (shuffle_perm (x :: ids)
                (st_rng (seeded cfg (initial_store g file)))) as Hperm.
  destruct (shuffle (x :: ids) _) as [gr g1]. simpl in Hperm.
  destruct (allocation_loop _ _ _ _ _ _) as [[[outs ws0]|e] s2] eqn:Hloop;
    [|done].
  intros [= <- <-].
  apply allocation_loop_trace in Hloop as (news & -> & Hall & -> & Hloads);
    [|by rewrite Hperm].
  exists (x :: ids), gr, news.
  split; [done|]. split; [done|]. split; [by rewrite Hperm|].
  do 4 (split; [done|]). exact Hloads.
Qed.

Lemma excluded_in_pool_le (ex : gset Z) (gr : list Z) :
  NoDup gr →
  (length gr ≤ length (filter (λ rid, rid ∉ ex) gr) + size ex)%nat.
Proof.
  intros Hnd.
  pose proof (filter_app_complement (λ rid, rid ∉ ex) gr) as Hperm.
  apply Permutation_length in Hperm. rewrite length_app in Hperm.
  assert (length (filter (λ rid : Z, ¬ (rid ∉ ex)) gr) ≤ size ex)%nat;
    [|lia].
  rewrite <- (size_list_to_set (C := gset Z)) by (by apply NoDup_filter).
  apply subseteq_size. intros rid Hin.
  apply elem_of_list_to_set, list_elem_of_filter in Hin as [Hin _].
  by apply dec_stable.
Qed.

(** X15.  The shape of the output file of a run that completes: one
    record per row that [iterrows] yields, in that order, carrying what
    [row.get("Application ID")] reads in the yielded row (the value
    after the dtype coercion of [iterrows], which need not be the cell
    as it stands in the table); in each record the cells are the
    assigned reviewers followed by empty strings up to [k] cells; the
    assigned reviewers of a record are distinct and all belong to the
    reviewer pool. *)
Theorem main_output_shape (cfg : config) (df : dataframe)
    (reviewers : list (list string)) (g : rng)
    (file : option (list out_row)) :
  match main cfg df reviewers (initial_store g file) with
  | (Returned _, s') =>
      ∃ ids outs,
        load_reviewer_ids reviewers = Returned ids
        ∧ st_file s' = Some outs
        ∧ o_app_id <$> outs
          = (λ row, row_get row APPLICATION_ID) <$> df_rows df
        ∧ Forall
            (λ out,
               o_assigned out
               = (PyInt <$> assigned_reviewers out)
                 ++ replicate
                      (Z.to_nat (ASSIGNMENTS_PER_APPLICATION cfg)
                       - length (assigned_reviewers out))%nat (PyStr "")
               ∧ NoDup (assigned_reviewers out)
               ∧ ∀ rid, rid ∈ assigned_reviewers out → rid ∈ ids)
            outs
  | (Raised _, _) => True
  end.
Proof.
  destruct (main cfg df reviewers (initial_store g file))
    as [[ws|e] s'] eqn:Hmain; [|done].
  apply main_trace in Hmain
      as (ids & gr & outs & Hids & _ & Hnd & Hperm & Hfile & Hall & _ & _).
  exists ids, outs. split; [done|]. split; [done|].
  clear Hfile. induction Hall as [|row out rows outs Hrec _ IH];
    [by split|].
  destruct IH as [IH1 IH2]. split.
  - cbn [fmap list_fmap]. f_equal; [|exact IH1].
    by destruct (record_of_assigned _ _ _ _ _ Hrec) as (_ & _ & ? & _).
  - constructor; [|done].
    destruct Hrec as (_ & picks & Hndp & Hin & Hlen & ->).
    rewrite assigned_reviewers_out_record by done.
    split; [by apply assigned_cells_padded|]. split; [done|].
    intros rid Hrid. rewrite <- Hperm. by apply Hin.
Qed.

(** X16.  When a run completes, the load of every reviewer in the load
    table is the number of records of the output file that name this
    reviewer; so no load exceeds the number of applications. *)
Theorem main_loads_count_assignments (cfg : config) (df : dataframe)
    (reviewers : list (list string)) (g : rng)
    (file : option (list out_row)) :
  match main cfg df reviewers (initial_store g file) with
  | (Returned _, s') =>
      ∃ outs,
        st_file s' = Some outs
        ∧ ∀ rid,
            load_of (st_loads s') rid
            = Z.of_nat (length (filter (λ out, rid ∈ assigned_reviewers out)
                                  outs))
            ∧ load_of (st_loads s') rid <= Z.of_nat (length (df_rows df))
  | (Raised _, _) => True
  end.
Proof.
  destruct (main cfg df reviewers (initial_store g file))
    as [[ws|e] s'] eqn:Hmain; [|done].
  apply main_trace in Hmain
      as (ids & gr & outs & Hids & _ & Hnd & Hperm & Hfile & Hall & _ & Hl).
  exists outs. split; [done|]. intros rid.
  assert (Forall (λ out, NoDup (assigned_reviewers out)) outs) as Hnds.
  { clear -Hall. induction Hall as [|row out rows outs Hrec _ IH];
      constructor; [|done].
    by destruct (record_of_assigned _ _ _ _ _ Hrec) as [? _]. }
  rewrite Hl, load_of_loads_after, load_of_zero_loads by done.
  split; [lia|].
  pose proof (length_filter (λ out, rid ∈ assigned_reviewers out) outs).
  apply Forall2_length in Hall. lia.
Qed.

(** X17.  When a run completes, the warnings it returns are exactly,
    and in order, those of the records of the output file whose
    under-fill flag is set, each naming the application of its record,
    the number of reviewers assigned there and [k]; and the flag of a
    record is set exactly when it names fewer than [k] reviewers. *)
Theorem main_warnings_match_flags (cfg : config) (df : dataframe)
    (reviewers : list (list string)) (g : rng)
    (file : option (list out_row)) :
  let k := ASSIGNMENTS_PER_APPLICATION cfg in
  match main cfg df reviewers (initial_store g file) with
  | (Returned ws, s') =>
      ∃ outs,
        st_file s' = Some outs
        ∧ ws = omap (warning_of_record k) outs
        ∧ Forall
            (λ out, o_used_fallback out = true
                    ↔ Z.of_nat (length (assigned_reviewers out)) < k)
            outs
  | (Raised _, _) => True
  end.
Proof.
  intros k.
  destruct (main cfg df reviewers (initial_store g file))
    as [[ws|e] s'] eqn:Hmain; [|done].
  apply main_trace in Hmain
      as (ids & gr & outs & _ & _ & _ & _ & Hfile & Hall & Hws & _).
  exists outs. split; [done|]. split; [done|].
  clear -Hall. induction Hall as [|row out rows outs Hrec _ IH];
    constructor; [|done].
  destruct Hrec as (_ & picks & _ & _ & Hlen & ->).
  rewrite assigned_reviewers_out_record by done.
  cbn [out_record o_used_fallback]. unfold len. apply Z.ltb_lt.
Qed.

(** X18.  In every record of a completed run, [Excluded Count] is the
    size of the exclusion set of the application, and
    [Eligible Pool Size] lies between the pool size minus
    [Excluded Count] and the pool size. *)
Theorem main_pool_size_accounting (cfg : config) (df : dataframe)
    (reviewers : list (list string)) (g : rng)
    (file : option (list out_row)) :
  match main cfg df reviewers (initial_store g file) with
  | (Returned _, s') =>
      ∃ ids outs,
        load_reviewer_ids reviewers = Returned ids
        ∧ st_file s' = Some outs
        ∧ Forall2
            (λ row out,
               build_exclusion_set row (get_exclusion_cols cfg df)
               = Returned (exclusion_of (get_exclusion_cols cfg df) row)
               ∧ o_excluded_count out
                 = size (exclusion_of (get_exclusion_cols cfg df) row)
               ∧ (o_eligible_size out ≤ length ids)%nat
               ∧ (length ids
                  ≤ o_eligible_size out + o_excluded_count out)%nat)
            (df_rows df) outs
  | (Raised _, _) => True
  end.
Proof.
  destruct (main cfg df reviewers (initial_store g file))
    as [[ws|e] s'] eqn:Hmain; [|done].
  apply main_trace in Hmain
      as (ids & gr & outs & Hids & _ & Hnd & Hperm & Hfile & Hall & _ & _).
  exists ids, outs. split; [done|]. split; [done|].
  eapply Forall2_impl; [exact Hall|]. intros row out Hrec.
  destruct (record_of_assigned _ _ _ _ _ Hrec) as (_ & _ & _ & He & Hs).
  split; [by destruct Hrec as [? _]|]. split; [done|].
  rewrite He, Hs, <- (Permutation_length Hperm).
  split; [apply length_filter | by apply excluded_in_pool_le].
Qed.

(** X19.  When the applicants table has none of the candidate
    exclusion columns, the run performs a plain allocation: in every
    record [Excluded Count] is zero and [Eligible Pool Size] is the
    size of the whole pool. *)
Theorem main_without_exclusion_columns (cfg : config) (df : dataframe)
    (reviewers : list (list string)) (g : rng)
    (file : option (list out_row)) :
  Forall (λ c, c ∉ df_columns df) (EXCLUSION_COL_CANDIDATES cfg) →
  get_exclusion_cols cfg df = []
  ∧ match main cfg df reviewers (initial_store g file) with
    | (Returned _, s') =>
        ∃ ids outs,
          load_reviewer_ids reviewers = Returned ids
          ∧ st_file s' = Some outs
          ∧ Forall (λ out, o_excluded_count out = 0%nat
                           ∧ o_eligible_size out = length ids) outs
    | (Raised _, _) => True
    end.
Proof.
  intros Hnone.
  assert (get_exclusion_cols cfg df = []) as Hcols.
  { unfold get_exclusion_cols.
    induction Hnone as [|c l Hc _ IH]; [done|].
    by rewrite filter_cons_False. }
  split; [done|].
  destruct (main cfg df reviewers (initial_store g file))
    as [[ws|e] s'] eqn:Hmain; [|done].
  apply main_trace in Hmain
      as (ids & gr & outs & Hids & _ & Hnd & Hperm & Hfile & Hall & _ & _).
  exists ids, outs. split; [done|]. split; [done|].
  rewrite Hcols in Hall. clear -Hall Hperm.
  induction Hall as [|row out rows outs Hrec _ IH]; constructor; [|done].
  destruct (record_of_assigned _ _ _ _ _ Hrec) as (_ & _ & _ & -> & ->).
  unfold exclusion_of. cbn [omap list_omap]. rewrite list_to_set_nil.
  split; [apply size_empty|].
  rewrite <- (Permutation_length Hperm). f_equal.
  clear. induction gr as [|x gr IH]; [done|].
  rewrite filter_cons_True by apply not_elem_of_empty. by rewrite IH.
Qed.

(** X20.  With a seed configured, a run does not depend on the state
    in which it finds the generator: from any two generator states it
    has the same outcome and ends in the same state. *)
Theorem main_seed_reproducible (cfg : config) (df : dataframe)
    (reviewers : list (list string)) (n : Z) (g g' : rng)
    (file : option (list out_row)) :
  SEED cfg = Some n →
  main cfg df reviewers (initial_store g file)
  = main cfg df reviewers (initial_store g' file).
Proof.
  intros Hseed. rewrite !main_unfold. unfold seeded. by rewrite Hseed.
Qed.

(** X21.  On an applicants table that has the [Application ID] column
    and no record, with a reviewer pool that the builder returns
    non-empty, the run completes with no warning, writes an empty
    output file and leaves every load at zero. *)
Theorem main_empty_table (cfg : config) (df : dataframe)
    (reviewers : list (list string)) (g : rng)
    (file : option (list out_row)) (ids : list Z) :
  APPLICATION_ID ∈ df_columns df →
  df_rows df = [] →
  load_reviewer_ids reviewers = Returned ids →
  ids ≠ [] →
  ∃ s', main cfg df reviewers (initial_store g file) = (Returned [], s')
        ∧ st_file s' = Some []
        ∧ ∀ rid, load_of (st_loads s') rid = 0.
Proof.
  intros Hcol Hrows Hl Hids. rewrite main_unfold. cbv zeta.
  rewrite decide_False by (by intros ?).
  rewrite Hl. destruct ids as [|x ids]; [done|].
  destruct (shuffle (x :: ids) _) as [gr g1]. rewrite Hrows.
  cbn [allocation_loop]. unfold ret. eexists. split; [done|].
  split; [done|]. intros rid. cbn [st_loads set_loads].
  apply load_of_zero_loads.
Qed.

(** X22.  No lookahead: the records written for the first [n]
    applications do not depend on the applications that follow.  If
    the run on the whole table completes, so does the run on the table
    cut after [n] records, its output file is the first [n] records of
    the output file of the whole run, and its warnings are the first
    warnings of the whole run. *)
Theorem main_no_lookahead (cfg : config) (df : dataframe)
    (reviewers : list (list string)) (g : rng)
    (file : option (list out_row)) (n : nat) :
  match main cfg df reviewers (initial_store g file) with
  | (Returned ws, s) =>
      ∃ outs wsn sn,
        st_file s = Some outs
        ∧ main cfg (first_applications n df) reviewers (initial_store g file)
          = (Returned wsn, sn)
        ∧ st_file sn = Some (take n outs)
        ∧ wsn `prefix_of` ws
  | (Raised _, _) => True
  end.
Proof.
  rewrite !main_unfold. cbv zeta. cbn [first_applications df_columns df_rows].
  assert (get_exclusion_cols cfg (first_applications n df)
          = get_exclusion_cols cfg df) as -> by done.
  case_decide; [done|].
  destruct (load_reviewer_ids reviewers) as [[|x ids]|e]; [done| |done].
  destruct (shuffle (x :: ids) _) as [gr g1].
  rewrite (allocation_loop_take_drop cfg _ gr (df_rows df) n).
  unfold bind at 1.
  pose proof (allocation_loop_spec cfg (get_exclusion_cols cfg df) gr
                (take n (df_rows df)) [] []
                (set_loads (zero_loads gr)
                   (set_rng g1 (seeded cfg (initial_store g file)))))
    as Hfirst.
  destruct (allocation_loop cfg _ gr (take n (df_rows df)) _ _)
    as [[[outs1 ws1]|e] s1]; [|done].
  destruct Hfirst as (_ & _ & new1 & -> & Hall1). simpl.
  pose proof (allocation_loop_spec cfg (get_exclusion_cols cfg df) gr
                (drop n (df_rows df)) new1 ws1 s1) as Hrest.
  destruct (allocation_loop cfg _ gr (drop n (df_rows df)) _ _)
    as [[[outs ws]|e] s2]; [|done].
  destruct Hrest as (_ & Hpre & new2 & -> & Hall2).
  eexists _, ws1, _. split; [done|]. split; [done|]. split; [|done].
  cbn [st_file]. f_equal.
  apply Forall2_length in Hall1. rewrite length_take in Hall1.
  destruct (decide (n ≤ length (df_rows df))%nat).
  - rewrite take_app_length'; [done | lia].
  - assert (new2 = []) as ->.
    { apply Forall2_length in Hall2. rewrite length_drop in Hall2.
      destruct new2; [done | simpl in Hall2; lia]. }
    rewrite app_nil_r, take_ge; [done | lia].
Qed.

End run_more.

(** ** Decimal writing *)

Lemma uint_chars_digits (d : Decimal.uint) :
  forallb is_digit (list_ascii_of_string (NilEmpty.string_of_uint d)) = true.
Proof. induction d; simpl; done. Qed.

Lemma uint_chars_value (d : Decimal.uint) :
  ∀ acc : nat,
    fold_left (λ a c, 10 * a + (Z.of_nat (code c) - 48))
      (list_ascii_of_string (NilEmpty.string_of_uint d)) (Z.of_nat acc)
    = Z.of_nat (Nat.of_uint_acc d acc).
Proof.
  induction d as [|d IH|d IH|d IH|d IH|d IH|d IH|d IH|d IH|d IH|d IH];
    intros acc; [done|..];
    cbn [NilEmpty.string_of_uint list_ascii_of_string fold_left
         Nat.of_uint_acc];
    rewrite <- IH; f_equal; rewrite Nat.tail_mul_spec;
    unfold code; cbn [nat_of_ascii]; vm_compute (nat_of_ascii _); lia.
Qed.

Section decimal_round_trip.
Context {parser : PyFloatParser}.

(** X23.  Writing and reading back: the decimal writing of a natural
    number, when it has no more digits than [int] converts, normalizes
    to that number, so such an identifier gives the same result as an
    integer value and as its decimal text. *)
Theorem normalize_id_decimal_text (n : nat) :
  Z.of_nat (length (list_ascii_of_string (decimal_text n)))
  <= INT_MAX_STR_DIGITS →
  normalize_id (PyStr (decimal_text n)) = Returned (Some (Z.of_nat n))
  ∧ normalize_id (PyStr (decimal_text n)) = normalize_id (PyInt (Z.of_nat n)).
Proof.
  intros Hlen.
  assert (normalize_id (PyStr (decimal_text n))
          = Returned (Some (Z.of_nat n))) as Hn; [|by split].
  set (s := list_ascii_of_string (decimal_text n)) in *.
  assert (forallb is_digit s = true ∧ s ≠ []
          ∧ int_of_digits s = Z.of_nat (Nat.of_uint (Nat.to_uint n)))
    as (Hd & Hne & Hv).
  { unfold s, decimal_text, NilZero.string_of_uint.
    destruct (Nat.to_uint n) as [|d|d|d|d|d|d|d|d|d|d] eqn:E;
      (split; [try done; apply (uint_chars_digits (_ d))|]);
      (split; [done|]); try done;
      unfold int_of_digits; apply (uint_chars_value _ 0%nat). }
  rewrite Unsigned.of_to in Hv.
  assert (remove_commas s = s) as Hrc.
  { unfold remove_commas. apply forallb_Forall_true in Hd. clear -Hd.
    induction Hd as [|c l Hc _ IH]; [done|]. simpl.
    assert (is_comma c = false) as ->.
    { unfold is_comma. unfold is_digit in Hc.
      apply andb_true_iff in Hc as [Ha Hb]. apply Nat.leb_le in Ha, Hb.
      apply Nat.eqb_neq. lia. }
    simpl. by rewrite IH. }
  rewrite normalize_digits_and_commas.
  - fold s. by rewrite Hrc, (int_of_str_within s Hlen), Hv.
  - fold s. unfold digits_and_commas. apply forallb_Forall_true.
    apply forallb_Forall_true in Hd. eapply Forall_impl; [exact Hd|].
    intros c Hc. simpl. by rewrite Hc.
  - fold s. destruct s as [|c s']; [done|]. simpl in *.
    apply andb_true_iff in Hd as [-> _]. done.
Qed.

End decimal_round_trip.

(** ** Further concrete runs *)

Section concrete_runs_more.
#[local] Existing Instance table_float_syntax.
#[local] Existing Instance lcg_random.

Example demo_plain_run :
  let r := main Demo.cfg Demo.df_plain Demo.reviewers (initial_store 0 None) in
  r.1 = Returned []
  ∧ ((λ o, (o_app_id o, o_excluded_count o, o_eligible_size o))
       <$> default [] (st_file r.2))
    = [(PyStr "P", 0%nat, 5%nat); (PyInt 17, 0%nat, 5%nat)].
Proof. vm_compute. split; reflexivity. Qed.

Example demo_selectors :
  (choose_reviewers [1; 2; 3] 5 busy_store).1 = Returned [1; 2; 3]
  ∧ (choose_reviewers [] (-1) busy_store).1 = Raised SampleOutOfRange
  ∧ (choose_reviewers_with_minmax [] (-1) None None busy_store).1
    = Returned []
  ∧ (choose_reviewers_with_minmax [1; 2; 3] (-1) None None busy_store).1
    = Raised SampleOutOfRange
  ∧ (choose_reviewers_with_minmax [1; 2; 3] (-1) (Some 1) None busy_store).1
    = Returned [].
Proof. vm_compute. repeat split. Qed.

Lemma normalize_id_ignores_padding_witness :
  forallb is_space [" "; "009"]%char = true
  ∧ forallb is_space [" "; "010"]%char = true
  ∧ normalize_id (PyStr (string_of_list_ascii
                           ([" "; "009"] ++ ["1"; ","; "2"]
                              ++ [" "; "010"])%char))
    = normalize_id (PyStr (string_of_list_ascii ["1"; ","; "2"]%char)).
Proof.
  split; [reflexivity|]. split; [reflexivity|].
  exact (@normalize_id_ignores_padding table_float_syntax
           [" "; "009"]%char ["1"; ","; "2"]%char [" "; "010"]%char
           eq_refl eq_refl).
Defined.

Lemma normalize_id_integer_text_witness :
  normalize_id (PyStr " 007.00 ") = Returned (Some 7).
Proof.
  assert (["0"; "0"; "7"]%char ≠ []) as Hne by discriminate.
  assert (Z.of_nat (length ["0"; "0"; "7"]%char) <= INT_MAX_STR_DIGITS)
    as Hlen by (vm_compute; discriminate).
  exact (@normalize_id_integer_text table_float_syntax
           [" "]%char ["0"; "0"; "7"]%char ["0"; "0"]%char [" "]%char
           eq_refl Hne eq_refl Hlen eq_refl eq_refl).
Defined.

Lemma load_reviewer_ids_app_witness :
  load_reviewer_ids [["7"]; []; ["3"]; ["x"]]%string = Returned [7; 3]
  ∧ load_reviewer_ids [["3"; "y"]; ["9"]; [" 7"]]%string
    = Returned [3; 9; 7]
  ∧ load_reviewer_ids
      (([["7"]; []; ["3"]; ["x"]]%string)
         ++ ([["3"; "y"]; ["9"]; [" 7"]]%string))%list
    = Returned ([7; 3] ++ filter (λ rid, rid ∉ [7; 3]) [3; 9; 7]).
Proof.
  assert (load_reviewer_ids [["7"]; []; ["3"]; ["x"]]%string
          = Returned [7; 3]) as H1 by (vm_compute; reflexivity).
  assert (load_reviewer_ids [["3"; "y"]; ["9"]; [" 7"]]%string
          = Returned [3; 9; 7]) as H2 by (vm_compute; reflexivity).
  split; [exact H1|]. split; [exact H2|].
  pose proof (@load_reviewer_ids_app table_float_syntax
                [["7"]; []; ["3"]; ["x"]]%string
                [["3"; "y"]; ["9"]; [" 7"]]%string [7; 3] [3; 9; 7] H1 H2)
    as [Happ _].
  exact Happ.
Defined.

Lemma normalize_id_decimal_text_witness :
  Z.of_nat (length (list_ascii_of_string (decimal_text 2026)))
  <= INT_MAX_STR_DIGITS
  ∧ normalize_id (PyStr (decimal_text 2026)) = Returned (Some 2026).
Proof.
  assert (Z.of_nat (length (list_ascii_of_string (decimal_text 2026)))
          <= INT_MAX_STR_DIGITS) as Hlen by (vm_compute; discriminate).
  split; [exact Hlen|].
  pose proof (@normalize_id_decimal_text table_float_syntax 2026 Hlen)
    as [Hn _].
  exact Hn.
Defined.

Lemma choose_reviewers_fills_when_possible_witness :
  0 <= 3
  ∧ ∃ picks,
      (choose_reviewers_with_minmax [1; 2; 3; 4; 5] 3 (Some 1) (Some 2)
         busy_store).1 = Returned picks
      ∧ len picks
        = Z.min 3 (len (capped_pool (st_loads busy_store) (Some 2)
                          [1; 2; 3; 4; 5]))
      ∧ (len picks < 3 →
         picks ≡ₚ capped_pool (st_loads busy_store) (Some 2)
                    [1; 2; 3; 4; 5]).
Proof.
  assert (0 <= 3) as Hk by lia. split; [exact Hk|].
  exact (@choose_reviewers_fills_when_possible lcg_random [1; 2; 3; 4; 5]
           3 (Some 1) (Some 2) busy_store Hk).
Defined.

Lemma choose_reviewers_exhausts_under_min_witness :
  0 < 1
  ∧ ∃ picks pu pa,
      (choose_reviewers_with_minmax [1; 2; 3; 4; 5] 3 (Some 1) (Some 2)
         busy_store).1 = Returned picks
      ∧ picks = pu ++ pa
      ∧ Forall (λ rid, load_of (st_loads busy_store) rid < 1) pu
      ∧ Forall (λ rid, 1 <= load_of (st_loads busy_store) rid) pa
      ∧ (pa ≠ [] →
         pu ≡ₚ under_min_of (st_loads busy_store) 1
                 (capped_pool (st_loads busy_store) (Some 2)
                    [1; 2; 3; 4; 5])).
Proof.
  assert (0 < 1) as Hmn by lia. split; [exact Hmn|].
  exact (@choose_reviewers_exhausts_under_min lcg_random [1; 2; 3; 4; 5]
           3 1 (Some 2) busy_store Hmn).
Defined.

Lemma choose_reviewers_with_minmax_unbounded_witness :
  soft_min (Some 0) = None
  ∧ choose_reviewers_with_minmax [1; 2; 3] 2 (Some 0) None busy_store
    = choose_reviewers [1; 2; 3] 2 busy_store.
Proof.
  split; [reflexivity|].
  pose proof (@choose_reviewers_with_minmax_unbounded lcg_random
                [1; 2; 3] 2 (Some 0) busy_store eq_refl) as [Heq _].
  apply Heq. right. lia.
Defined.

Lemma main_without_exclusion_columns_witness :
  Forall (λ c, c ∉ df_columns Demo.df_plain)
    (EXCLUSION_COL_CANDIDATES Demo.cfg)
  ∧ get_exclusion_cols Demo.cfg Demo.df_plain = [].
Proof.
  assert (Forall (λ c, c ∉ df_columns Demo.df_plain)
            (EXCLUSION_COL_CANDIDATES Demo.cfg)) as Hnone
    by compute_done.
  split; [exact Hnone|].
  pose proof (@main_without_exclusion_columns table_float_syntax lcg_random
                Demo.cfg Demo.df_plain Demo.reviewers 0 None Hnone)
    as [Hcols _].
  exact Hcols.
Defined.

Lemma main_seed_reproducible_witness :
  SEED Demo.cfg = Some 42
  ∧ main Demo.cfg Demo.df Demo.reviewers (initial_store 0 None)
    = main Demo.cfg Demo.df Demo.reviewers (initial_store 2026 None).
Proof.
  split; [reflexivity|].
  exact (@main_seed_reproducible table_float_syntax lcg_random Demo.cfg
           Demo.df Demo.reviewers 42 0 2026 None eq_refl).
Defined.

Lemma main_empty_table_witness :
  ∃ s', main Demo.cfg Demo.df_empty Demo.reviewers (initial_store 0 None)
        = (Returned [], s')
        ∧ st_file s' = Some []
        ∧ ∀ rid, load_of (st_loads s') rid = 0.
Proof.
  assert (load_reviewer_ids Demo.reviewers = Returned [1; 2; 3; 4; 5])
    as Hids by (vm_compute; reflexivity).
  assert ([1; 2; 3; 4; 5] ≠ []) as Hne by discriminate.
  exact (@main_empty_table table_float_syntax lcg_random Demo.cfg
           Demo.df_empty Demo.reviewers 0 None [1; 2; 3; 4; 5]
           (list_elem_of_here _ _) eq_refl Hids Hne).
Defined.

End concrete_runs_more.
